(** * iocinfo.py: generation of IOC and service documentation pages

    A shallow embedding of [iocinfo.py] and the proofs of its
    specification.  The script reads one directory per IOC (a log file, an
    optional YAML file, an optional [st.cmd], an optional [pvlist.txt]),
    optionally a [values.yaml] describing IOCs and services, and writes one
    markdown page per IOC and per service with ingress.

    Conventions of the embedding.
    - A Python [str] is a [string]; a character is the code point below 256
      held by the [ascii].  File contents are the text that [f.read()]
      returns (decoded, newlines already translated).
    - The value returned by [yaml.safe_load] is a [yaml] tree: null,
      booleans, integers, strings, sequences and mappings.  The parser
      itself is a parameter of [main].
    - A [dict] that is only looked up is a [gmap]; a [dict] that is iterated
      ([.items()]) is an association list in insertion order.
    - Effects (files, standard output, the clock, exceptions) are threaded
      through the monad [M] over a [world]. *)

From Stdlib Require Import Ascii String List ZArith Lia Bool DecimalString.
From stdpp Require Import base option gmap strings list.

#[local] Set Warnings "-register-all".
#[local] Arguments String.append !_ _ / : simpl nomatch.
Local Open Scope string_scope.
Local Open Scope list_scope.

(** ** Python string primitives *)

Module Py.

(** The characters the templates need and a literal cannot hold. *)
Definition nl : string := String "010" EmptyString.
Definition dq : string := String "034" EmptyString.

(** [str.isspace] on one character, for code points below 256:
    TAB..CR, FS..US, SPACE, NEL and NBSP. *)
Definition isspace (c : ascii) : bool :=
  let n := N_of_ascii c in
  ((9 <=? n) && (n <=? 13) || (28 <=? n) && (n <=? 32)
   || (n =? 133) || (n =? 160))%N.

(** [s.lstrip()], [s.rstrip()] and [s.strip()]. *)
Fixpoint lstrip (s : string) : string :=
  match s with
  | EmptyString => EmptyString
  | String c s' => if isspace c then lstrip s' else s
  end.

Fixpoint rstrip (s : string) : string :=
  match s with
  | EmptyString => EmptyString
  | String c s' =>
      match rstrip s' with
      | EmptyString => if isspace c then EmptyString else String c EmptyString
      | r => String c r
      end
  end.

Definition strip (s : string) : string := rstrip (lstrip s).

(** [c in s] for a one-character string [c]. *)
Fixpoint contains_char (c : ascii) (s : string) : bool :=
  match s with
  | EmptyString => false
  | String d s' => Ascii.eqb d c || contains_char c s'
  end.

(** [s.split(sep)] and [s.split(sep, maxsplit)] for a one-character
    separator, which is what both call sites pass.  [maxsplit = None] is the
    call without the second argument. *)
Fixpoint split (sep : ascii) (maxsplit : option nat) (s : string) : list string :=
  match s with
  | EmptyString => [EmptyString]
  | String c s' =>
      if Ascii.eqb c sep && negb (bool_decide (maxsplit = Some 0%nat)) then
        EmptyString :: split sep (pred <$> maxsplit) s'
      else
        match split sep maxsplit s' with
        | h :: t => String c h :: t
        | [] => [String c EmptyString]
        end
  end.

(** Iteration over a text file, [for line in f]: the lines with their
    terminating newline kept. *)
Fixpoint readlines (s : string) : list string :=
  match s with
  | EmptyString => []
  | String c s' =>
      if Ascii.eqb c "010" then String c EmptyString :: readlines s'
      else
        match readlines s' with
        | h :: t => String c h :: t
        | [] => [String c EmptyString]
        end
  end.

(** [s] without the prefix [p], when [s] starts with [p]; [s.startswith(p)]
    and [sub in s]. *)
Fixpoint removeprefix (p s : string) : option string :=
  match p with
  | EmptyString => Some s
  | String a p' =>
      match s with
      | EmptyString => None
      | String b s' => if Ascii.eqb a b then removeprefix p' s' else None
      end
  end.

Definition startswith (s p : string) : bool :=
  match removeprefix p s with Some _ => true | None => false end.

Fixpoint contains (sub s : string) : bool :=
  startswith s sub
  || match s with
     | EmptyString => false
     | String _ s' => contains sub s'
     end.

(** [sep.join(l)]. *)
Definition join (sep : string) (l : list string) : string := String.concat sep l.

(** [s.endswith(suffix)]. *)
Definition endswith (s suffix : string) : bool :=
  startswith (String.rev s) (String.rev suffix).

(** [str(n)] for an [int]. *)
Definition str_int (z : Z) : string := NilZero.string_of_int (Z.to_int z).

(** [s[:n]]. *)
Definition take (n : nat) (s : string) : string := String.substring 0 n s.

End Py.

(** ** Exceptions *)

Inductive exn : Type :=
| AttributeError | TypeError | KeyError | ValueError
| OSError      (* any failure of a file operation; the script catches none *)
| YAMLError.

Inductive result (A : Type) : Type :=
| Ok (a : A)
| Raise (e : exn).
Arguments Ok {A} a.
Arguments Raise {A} e.

Definition rbind {A B} (r : result A) (k : A -> result B) : result B :=
  match r with
  | Ok a => k a
  | Raise e => Raise e
  end.

Declare Scope result_scope.
Delimit Scope result_scope with res.
Notation "'let*' x ':=' r 'in' k" := (rbind r (fun x => k))
  (at level 10, x pattern, r at level 100, k at level 200) : result_scope.
Local Open Scope result_scope.

(** ** The values of [yaml.safe_load] and the operations the script applies *)

Inductive yaml : Type :=
| YNull
| YBool (b : bool)
| YInt (z : Z)
| YStr (s : string)
| YSeq (l : list yaml)
| YMap (m : list (yaml * yaml)).

Module Dyn.

(** [bool(v)]. *)
Definition truthy (v : yaml) : bool :=
  match v with
  | YNull => false
  | YBool b => b
  | YInt z => negb (z =? 0)%Z
  | YStr s => negb (String.eqb s "")
  | YSeq l => match l with [] => false | _ :: _ => true end
  | YMap m => match m with [] => false | _ :: _ => true end
  end.

(** [v == key] for a [str] [key]: only an equal [str] compares equal. *)
Definition is_str (key : string) (v : yaml) : bool :=
  match v with
  | YStr s => String.eqb s key
  | _ => false
  end.

(** Lookup of a [str] key in the entries of a [dict]. *)
Fixpoint dict_get (m : list (yaml * yaml)) (key : string) : option yaml :=
  match m with
  | [] => None
  | (k, v) :: m' => if is_str key k then Some v else dict_get m' key
  end.

Definition dict_has (m : list (yaml * yaml)) (key : string) : bool :=
  bool_decide (is_Some (dict_get m key)).

(** [v.get(key, default)]: only a [dict] has the attribute. *)
Definition get (v : yaml) (key : string) (dflt : yaml) : result yaml :=
  match v with
  | YMap m => Ok (default dflt (dict_get m key))
  | _ => Raise AttributeError
  end.

(** [key in v] for a [str] [key]: a key of a [dict], an element of a
    [list], a substring of a [str]; the other values are not iterable. *)
Definition contains (key : string) (v : yaml) : result bool :=
  match v with
  | YMap m => Ok (dict_has m key)
  | YSeq l => Ok (existsb (is_str key) l)
  | YStr s => Ok (Py.contains key s)
  | _ => Raise TypeError
  end.

(** [v[key]] for a [str] [key]: a [dict] raises [KeyError] on a missing key;
    nothing else takes a [str] subscript. *)
Definition getitem (v : yaml) (key : string) : result yaml :=
  match v with
  | YMap m =>
      match dict_get m key with
      | Some x => Ok x
      | None => Raise KeyError
      end
  | _ => Raise TypeError
  end.

(** [v.items()]. *)
Definition items (v : yaml) : result (list (yaml * yaml)) :=
  match v with
  | YMap m => Ok m
  | _ => Raise AttributeError
  end.

(** [for x in v]: the elements of a [list], the keys of a [dict], the
    characters of a [str]. *)
Definition iter (v : yaml) : result (list yaml) :=
  match v with
  | YSeq l => Ok l
  | YMap m => Ok (map fst m)
  | YStr s => Ok (map (fun c => YStr (String c EmptyString)) (list_ascii_of_string s))
  | _ => Raise TypeError
  end.

(** [a or b]: [b] is evaluated only when [a] is falsy. *)
Definition or_else (a : yaml) (b : result yaml) : result yaml :=
  if truthy a then Ok a else b.

(** [s += v] for a [str] [s]. *)
Definition iadd_str (s : string) (v : yaml) : result string :=
  match v with
  | YStr t => Ok (s +:+ t)
  | _ => Raise TypeError
  end.

(** [repr] of a [str]: single quotes unless the text has a single quote and
    no double quote; backslash, the quote, and the characters that are not
    printable are escaped. *)
Definition hex_digit (n : N) : ascii :=
  ascii_of_N (if (n <? 10)%N then 48 + n else 87 + n)%N.

Definition printable (c : ascii) : bool :=
  let n := N_of_ascii c in
  ((32 <=? n) && (n <? 127) || (161 <=? n) && negb (n =? 173))%N.

Definition repr_char (quote c : ascii) : string :=
  let n := N_of_ascii c in
  if Ascii.eqb c "\" then "\\"
  else if Ascii.eqb c quote then String "\" (String c EmptyString)
  else if (n =? 9)%N then "\t"
  else if (n =? 10)%N then "\n"
  else if (n =? 13)%N then "\r"
  else if printable c then String c EmptyString
  else String "\" (String "x" (String (hex_digit (n / 16)) (String (hex_digit (n mod 16)) EmptyString))).

Definition repr_str (s : string) : string :=
  let quote : ascii :=
    (if Py.contains_char "'" s && negb (Py.contains_char "034" s) then "034" else "'")%char in
  String quote (String.concat "" (map (repr_char quote) (list_ascii_of_string s)))
  +:+ String quote EmptyString.

(** [repr(v)] and [str(v)], which is what an f-string applies. *)
Fixpoint repr (v : yaml) : string :=
  match v with
  | YNull => "None"
  | YBool true => "True"
  | YBool false => "False"
  | YInt z => Py.str_int z
  | YStr s => repr_str s
  | YSeq l => "[" +:+ Py.join ", " (map repr l) +:+ "]"
  | YMap m =>
      "{" +:+ Py.join ", " (map (fun kv => match kv with
                                         | (k, x) => repr k +:+ ": " +:+ repr x
                                         end) m) +:+ "}"
  end.

Definition str (v : yaml) : string :=
  match v with
  | YStr s => s
  | _ => repr v
  end.

End Dyn.

(** ** The world: files, standard output, the clock *)

(** A file system without links: a tree of directories, the entries of a
    directory in the order [os.listdir] returns them. *)
Inductive node : Type :=
| File (data : string)
| Dir (entries : list (string * node)).

Record world : Type := World {
  root : node;                      (* the tree under [/] *)
  cwd : list string;                (* the working directory, from the root *)
  clock : nat -> string;            (* what the n-th [datetime.now().isoformat()] gives *)
  ticks : nat;                      (* how many times the clock was read *)
  stdout : list string;             (* the lines printed, oldest first *)
  written : list (string * string)  (* each [f.write]: path as opened, text *)
}.

Definition M (A : Type) : Type := world -> result A * world.

Definition ret {A} (a : A) : M A := fun w => (Ok a, w).

Definition bind {A B} (m : M A) (k : A -> M B) : M B :=
  fun w =>
    match m w with
    | (Ok a, w') => k a w'
    | (Raise e, w') => (Raise e, w')
    end.

Definition lift {A} (r : result A) : M A := fun w => (r, w).

Declare Scope io_scope.
Delimit Scope io_scope with io.
Notation "'let!' x ':=' m 'in' k" := (bind m (fun x => k))
  (at level 10, x pattern, m at level 100, k at level 200) : io_scope.
Notation "m ';;' k" := (bind m (fun _ => k))
  (at level 100, k at level 200, right associativity) : io_scope.
Local Open Scope io_scope.

(** [for x in l: body(x)]. *)
Fixpoint for_each {A} (l : list A) (body : A -> M unit) : M unit :=
  match l with
  | [] => ret tt
  | x :: l' => body x ;; for_each l' body
  end.

Module Fs.

Fixpoint entry (name : string) (es : list (string * node)) : option node :=
  match es with
  | [] => None
  | (n, x) :: es' => if String.eqb n name then Some x else entry name es'
  end.

Fixpoint set_entry (name : string) (x : node) (es : list (string * node)) : list (string * node) :=
  match es with
  | [] => [(name, x)]
  | (n, y) :: es' => if String.eqb n name then (n, x) :: es' else (n, y) :: set_entry name x es'
  end.

(** The node at a list of names below [n]. *)
Fixpoint lookup (n : node) (p : list string) : option node :=
  match p with
  | [] => Some n
  | c :: p' =>
      match n with
      | Dir es =>
          match entry c es with
          | Some n' => lookup n' p'
          | None => None
          end
      | File _ => None
      end
  end.

(** Put [x] at [p] below [n], replacing what is there; directories missing
    on the way are created. *)
Fixpoint put (n : node) (p : list string) (x : node) : node :=
  match p with
  | [] => x
  | c :: p' =>
      let es := match n with Dir es => es | File _ => [] end in
      Dir (set_entry c (put (default (Dir []) (entry c es)) p' x) es)
  end.

(** Path resolution: each component is looked up in a directory that
    exists; an empty component or [.] stays, [..] goes up. *)
Fixpoint walk (r : node) (at_ : list string) (comps : list string) : result (list string) :=
  match comps with
  | [] => Ok at_
  | c :: rest =>
      match lookup r at_ with
      | Some (Dir _) =>
          if String.eqb c "" || String.eqb c "." then walk r at_ rest
          else if String.eqb c ".." then walk r (removelast at_) rest
          else walk r (at_ ++ [c]) rest
      | _ => Raise OSError
      end
  end.

Definition resolve (w : world) (path : string) : result (list string) :=
  if String.eqb path "" then Raise OSError
  else
    match Py.split "/" None path with
    | "" :: rest => walk (root w) [] rest
    | comps => walk (root w) (cwd w) comps
    end.

Definition stat (w : world) (path : string) : option node :=
  match resolve w path with
  | Ok p => lookup (root w) p
  | Raise _ => None
  end.

End Fs.

(** [os.path.join(a, b)] on POSIX. *)
Definition os_path_join (a b : string) : string :=
  if Py.startswith b "/" then b
  else if String.eqb a "" || Py.endswith a "/" then a +:+ b
  else a +:+ "/" +:+ b.

Definition os_path_exists (path : string) : M bool :=
  fun w => (Ok (bool_decide (is_Some (Fs.stat w path))), w).

Definition os_path_isdir (path : string) : M bool :=
  fun w => (Ok (match Fs.stat w path with Some (Dir _) => true | _ => false end), w).

Definition os_listdir (path : string) : M (list string) :=
  fun w =>
    match Fs.stat w path with
    | Some (Dir es) => (Ok (map fst es), w)
    | _ => (Raise OSError, w)
    end.

(** [with open(path, 'r') as f: f.read()]. *)
Definition read_text (path : string) : M string :=
  fun w =>
    match Fs.stat w path with
    | Some (File data) => (Ok data, w)
    | _ => (Raise OSError, w)
    end.

(** [with open(path, 'w') as f: f.write(data)]: the file is created in an
    existing directory, or truncated and rewritten. *)
Definition write_text (path data : string) : M unit :=
  fun w =>
    match Fs.resolve w path with
    | Ok p =>
        match p, Fs.lookup (root w) p with
        | _ :: _, Some (File _) | _ :: _, None =>
            (Ok tt, World (Fs.put (root w) p (File data)) (cwd w) (clock w) (ticks w)
                          (stdout w) (written w ++ [(path, data)]))
        | _, _ => (Raise OSError, w)
        end
    | Raise e => (Raise e, w)
    end.

(** [os.makedirs(path, exist_ok=True)]. *)
Fixpoint makedirs_from (r : node) (at_ : list string) (comps : list string) : result node :=
  match comps with
  | [] => Ok r
  | c :: rest =>
      match Fs.lookup r at_ with
      | Some (Dir _) =>
          if String.eqb c "" || String.eqb c "." then makedirs_from r at_ rest
          else if String.eqb c ".." then makedirs_from r (removelast at_) rest
          else
            match Fs.lookup r (at_ ++ [c]) with
            | Some (File _) => Raise OSError
            | Some (Dir _) => makedirs_from r (at_ ++ [c]) rest
            | None => makedirs_from (Fs.put r (at_ ++ [c]) (Dir [])) (at_ ++ [c]) rest
            end
      | _ => Raise OSError
      end
  end.

Definition os_makedirs (path : string) : M unit :=
  fun w =>
    if String.eqb path "" then (Raise OSError, w)
    else
      let r :=
        match Py.split "/" None path with
        | "" :: rest => makedirs_from (root w) [] rest
        | comps => makedirs_from (root w) (cwd w) comps
        end in
      match r with
      | Ok r' => (Ok tt, World r' (cwd w) (clock w) (ticks w) (stdout w) (written w))
      | Raise e => (Raise e, w)
      end.

(** [print(line)]. *)
Definition print (line : string) : M unit :=
  fun w => (Ok tt, World (root w) (cwd w) (clock w) (ticks w) (stdout w ++ [line]) (written w)).

(** [datetime.now().isoformat()]. *)
Definition now_isoformat : M string :=
  fun w => (Ok (clock w (ticks w)),
            World (root w) (cwd w) (clock w) (S (ticks w)) (stdout w) (written w)).

(** ** The script *)

Import Py.

(** *** [extract_ioc_metadata] *)

(** The body of the loop over the lines of [start.log]. *)
Definition metadata_line (metadata : gmap string string) (line : string)
  : result (gmap string string) :=
  if contains_char ":" line then
    match split ":" (Some 1%nat) line with
    | [key; value] => Ok (<[strip key := strip value]> metadata)
    | _ => Raise ValueError
    end
  else Ok metadata.

Fixpoint metadata_lines (metadata : gmap string string) (lines : list string)
  : result (gmap string string) :=
  match lines with
  | [] => Ok metadata
  | line :: lines' =>
      let* metadata' := metadata_line metadata line in
      metadata_lines metadata' lines'
  end.

Definition extract_ioc_metadata (start_log_path : string) : M (gmap string string) :=
  let! present := os_path_exists start_log_path in
  if present : bool then
    let! text := read_text start_log_path in
    lift (metadata_lines ∅ (readlines text))
  else ret ∅.

(** *** [make_urls_clickable] *)

(** The run of characters that [[^\s]+] takes at the head of [s], and how
    the pattern [https?://[^\s]+] matches at the head of [s]. *)
Fixpoint nonspace_run (s : string) : string :=
  match s with
  | EmptyString => EmptyString
  | String c s' => if isspace c then EmptyString else String c (nonspace_run s')
  end.

Definition match_url (s : string) : option string :=
  let scheme :=
    match removeprefix "https://" s with
    | Some rest => Some ("https://", rest)
    | None =>
        match removeprefix "http://" s with
        | Some rest => Some ("http://", rest)
        | None => None
        end
    end in
  match scheme with
  | Some (p, rest) =>
      match nonspace_run rest with
      | EmptyString => None
      | run => Some (p +:+ run)
      end
  | None => None
  end.

(** [re.sub]: scan from the left; at a match emit the replacement and go on
    after the match ([skip] counts the characters of the match still to
    pass), otherwise copy one character. *)
Fixpoint sub_urls (skip : nat) (text : string) : string :=
  match text with
  | EmptyString => EmptyString
  | String c rest =>
      match skip with
      | S k => sub_urls k rest
      | O =>
          match match_url text with
          | Some url => "[" +:+ url +:+ "](" +:+ url +:+ ")" +:+ sub_urls (String.length url - 1) rest
          | None => String c (sub_urls 0 rest)
          end
      end
  end.

Definition make_urls_clickable (text : string) : string := sub_urls 0 text.

(** *** Loading [values.yaml] *)

(** [values.get('epicsConfiguration', {}).get('iocs', [])]. *)
Definition ioc_list_of (values : yaml) : result yaml :=
  let* epics := Dyn.get values "epicsConfiguration" (YMap []) in
  Dyn.get epics "iocs" (YSeq []).

(** An element of the list [services]: the dict with the keys ['name'],
    ['config'] and ['url']. *)
Record service : Type := Service {
  service_name : yaml;
  service_config : yaml;
  service_url : string
}.

(** [service_config.get('enable_ingress') or
     service_config.get('ingress', {}).get('enabled')]. *)
Definition has_ingress (service_config : yaml) : result yaml :=
  let* flag := Dyn.get service_config "enable_ingress" YNull in
  Dyn.or_else flag
    (let* ingress := Dyn.get service_config "ingress" (YMap []) in
     Dyn.get ingress "enabled" YNull).

(** The condition of line 41: [has_ingress or 'loadbalancer' in service_config]. *)
Definition ingress_or_loadbalancer (service_config : yaml) : result bool :=
  let* ingress := has_ingress service_config in
  let* any :=
    Dyn.or_else ingress
      (let* lb := Dyn.contains "loadbalancer" service_config in Ok (YBool lb)) in
  Ok (Dyn.truthy any).

(** Lines 43-52: the URL of a service. *)
Definition compute_url (values name service_config : yaml) : result string :=
  let* has_lb := Dyn.contains "loadbalancer" service_config in
  let* url :=
    if has_lb : bool then
      let* lb := Dyn.getitem service_config "loadbalancer" in
      Ok ("http://" +:+ Dyn.str lb)
    else
      let* beamline := Dyn.get values "beamline" (YStr "") in
      let* epik8namespace := Dyn.get values "epik8namespace" (YStr "") in
      Ok ("http://" +:+ Dyn.str beamline +:+ "-" +:+ Dyn.str name +:+ "." +:+ Dyn.str epik8namespace) in
  let* has_path := Dyn.contains "path" service_config in
  if has_path : bool then
    let* path := Dyn.getitem service_config "path" in
    Dyn.iadd_str url path
  else Ok url.

(** The loop over [epics_services.items()]. *)
Fixpoint services_loop (values : yaml) (items : list (yaml * yaml)) (services : list service)
  : result (list service) :=
  match items with
  | [] => Ok services
  | (name, service_config) :: items' =>
      let* selected := ingress_or_loadbalancer service_config in
      if selected : bool then
        let* url := compute_url values name service_config in
        services_loop values items' (services ++ [Service name service_config url])
      else services_loop values items' services
  end.

Definition services_with_ingress (values : yaml) : result (list service) :=
  let* beamline := Dyn.get values "beamline" (YStr "") in
  let* epik8namespace := Dyn.get values "epik8namespace" (YStr "") in
  let* epics := Dyn.get values "epicsConfiguration" (YMap []) in
  let* epics_services := Dyn.get epics "services" (YMap []) in
  let* items := Dyn.items epics_services in
  services_loop values items [].

(** *** The page of an IOC *)

Definition nonempty (s : string) : bool := negb (String.eqb s "").

(** [len([line for line in pvlist_content.strip().split('\n') if line.strip()])]. *)
Definition count_pvs (pvlist_content : string) : nat :=
  length (List.filter (fun line => nonempty (strip line))
                      (split "010" None (strip pvlist_content))).

Definition asset_link (ioc_asset : string) : string :=
  "- [IOC Asset Documentation](" +:+ ioc_asset +:+ ")".
Definition startlog_link : string := "- [Start Log](#startlog)".
Definition yaml_link : string := "- [Configuration (YAML)](#yaml)".
Definition stcmd_link : string := "- [EPICS st.cmd](#stcmd)".
Definition pvlist_link (pv_count : nat) : string :=
  "- [Process Variables (" +:+ str_int (Z.of_nat pv_count) +:+ ")](#pvlist)".

(** Lines 134-143. *)
Definition nav_links (ioc_asset yaml_content stcmd_content pvlist_content : string)
  (pv_count : nat) : list string :=
  (if nonempty ioc_asset then [asset_link ioc_asset] else [])
  ++ [startlog_link]
  ++ (if nonempty yaml_content then [yaml_link] else [])
  ++ (if nonempty stcmd_content then [stcmd_link] else [])
  ++ (if nonempty pvlist_content then [pvlist_link pv_count] else []).

Definition yaml_section (yaml_content : string) : string :=
  if nonempty yaml_content then
    nl +:+ "## Configuration (YAML) {#yaml}" +:+ nl +:+ nl
    +:+ "```yaml" +:+ nl +:+ yaml_content +:+ nl +:+ "```" +:+ nl
  else "".

Definition stcmd_section (stcmd_content : string) : string :=
  if nonempty stcmd_content then
    nl +:+ "## EPICS st.cmd {#stcmd}" +:+ nl +:+ nl
    +:+ "```bash" +:+ nl +:+ stcmd_content +:+ nl +:+ "```" +:+ nl
  else "".

Definition pvlist_section (pvlist_content : string) (pv_count : nat) : string :=
  if nonempty pvlist_content then
    nl +:+ "## Process Variables (" +:+ str_int (Z.of_nat pv_count) +:+ ") {#pvlist}" +:+ nl +:+ nl
    +:+ "```text" +:+ nl +:+ pvlist_content +:+ nl +:+ "```" +:+ nl
  else "".

Definition desc_section (ioc_desc : yaml) : string :=
  if Dyn.truthy ioc_desc then
    nl +:+ "## Description" +:+ nl +:+ nl +:+ Dyn.str ioc_desc +:+ nl +:+ nl
  else "".

Definition ioc_front_matter (ioc_name devgroup date : string) : string :=
  "---" +:+ nl
  +:+ "title: " +:+ dq +:+ ioc_name +:+ dq +:+ nl
  +:+ "linkTitle: " +:+ dq +:+ ioc_name +:+ dq +:+ nl
  +:+ "weight: 10" +:+ nl
  +:+ "devgroup: " +:+ dq +:+ devgroup +:+ dq +:+ nl
  +:+ "date: " +:+ dq +:+ date +:+ dq +:+ nl
  +:+ "---" +:+ nl.

Definition startlog_section (start_log_content : string) : string :=
  "## Start Log {#startlog}" +:+ nl +:+ nl
  +:+ "```" +:+ nl +:+ start_log_content +:+ nl +:+ "```" +:+ nl.

(** What was read for one IOC, lines 89-131. *)
Record ioc_inputs : Type := IocInputs {
  devgroup : string;
  ioc_asset : string;
  start_log_content : string;
  yaml_content : string;
  stcmd_content : string;
  pvlist_content : string;
  pv_count : nat;
  ioc_desc : yaml
}.

(** Lines 184-202: [md_content]. *)
Definition ioc_md_content (ioc_name date : string) (i : ioc_inputs) : string :=
  ioc_front_matter ioc_name (devgroup i) date +:+ nl
  +:+ "## Quick Navigation" +:+ nl +:+ nl
  +:+ join nl (nav_links (ioc_asset i) (yaml_content i) (stcmd_content i)
                         (pvlist_content i) (pv_count i)) +:+ nl +:+ nl
  +:+ startlog_section (start_log_content i)
  +:+ desc_section (ioc_desc i)
  +:+ yaml_section (yaml_content i)
  +:+ stcmd_section (stcmd_content i)
  +:+ pvlist_section (pvlist_content i) (pv_count i)
  +:+ nl.

(** *** The page of a service *)

Definition default_service_desc : yaml :=
  YStr "This is an EPICS service with ingress enabled.".

(** Lines 225-231: [connection_info], from [has_ingress] and
    [has_loadbalancer] of lines 220-221. *)
Definition connection_info (ingress : yaml) (has_loadbalancer : bool) (s : service)
  : result string :=
  if has_loadbalancer && negb (Dyn.truthy ingress) then
    let* lb := Dyn.getitem (service_config s) "loadbalancer" in
    Ok ("**Connection IP:** " +:+ Dyn.str lb)
  else
    Ok ("## Service URL" +:+ nl +:+ nl
        +:+ "[" +:+ service_url s +:+ "](" +:+ service_url s +:+ ")").

Definition service_front_matter (name date : string) : string :=
  "---" +:+ nl
  +:+ "title: " +:+ dq +:+ name +:+ dq +:+ nl
  +:+ "linkTitle: " +:+ dq +:+ name +:+ dq +:+ nl
  +:+ "weight: 10" +:+ nl
  +:+ "type: docs" +:+ nl
  +:+ "date: " +:+ dq +:+ date +:+ dq +:+ nl
  +:+ "---" +:+ nl.

(** Lines 233-246: [md_content]. *)
Definition service_md_content (name date connection service_desc : string) : string :=
  service_front_matter name date +:+ nl
  +:+ connection +:+ nl +:+ nl
  +:+ "## Description" +:+ nl +:+ nl
  +:+ service_desc +:+ nl.

(** *** [main] *)

(** [[ioc['name'] for ioc in iocs_data]]. *)
Fixpoint names_of (iocs : list yaml) : result (list yaml) :=
  match iocs with
  | [] => Ok []
  | ioc :: iocs' =>
      let* name := Dyn.getitem ioc "name" in
      let* names := names_of iocs' in
      Ok (name :: names)
  end.

(** [{ioc['name']: ioc for ioc in iocs_data}].  The dict is only asked for
    [str] keys, so the entries under a [str] name are kept; a name that is
    a list or a dict cannot be hashed. *)
Fixpoint configs_of (iocs : list yaml) (ioc_configs : gmap string yaml)
  : result (gmap string yaml) :=
  match iocs with
  | [] => Ok ioc_configs
  | ioc :: iocs' =>
      let* name := Dyn.getitem ioc "name" in
      match name with
      | YStr s => configs_of iocs' (<[s := ioc]> ioc_configs)
      | YSeq _ | YMap _ => Raise TypeError
      | _ => configs_of iocs' ioc_configs
      end
  end.

(** [ioc in allowed_iocs] for a directory name [ioc]. *)
Definition allowed (allowed_iocs : list yaml) (ioc : string) : bool :=
  existsb (Dyn.is_str ioc) allowed_iocs.

(** Lines 129-131. *)
Definition description_of (ioc_configs : gmap string yaml) (ioc_name : string) : result yaml :=
  match ioc_configs !! ioc_name with
  | Some ioc =>
      let* has_desc := Dyn.contains "desc" ioc in
      if has_desc : bool then Dyn.getitem ioc "desc" else Ok (YStr "")
  | None => Ok (YStr "")
  end.

(** [[d for d in l if test(d)]] with a test that looks at the files. *)
Fixpoint filter_io {A} (test : A -> M bool) (l : list A) : M (list A) :=
  match l with
  | [] => ret []
  | x :: l' =>
      let! keep := test x in
      let! rest := filter_io test l' in
      ret (if keep : bool then x :: rest else rest)
  end.

Section Script.

(** [yaml.safe_load] applied to the text of a file. *)
Variable safe_load : string -> result yaml.

Definition load_values (values_file : string) : M yaml :=
  let! text := read_text values_file in
  lift (safe_load text).

Definition load_ioc_list (values_file : string) : M yaml :=
  let! values := load_values values_file in
  lift (ioc_list_of values).

Definition load_services_with_ingress (values_file : string) : M (list service) :=
  let! values := load_values values_file in
  lift (services_with_ingress values).

(** Lines 65-74: [allowed_iocs], [ioc_configs] and [services]. *)
Definition load_config (values_file : option string)
  : M (option (list yaml) * gmap string yaml * list service) :=
  match values_file with
  | Some file =>
      if nonempty file then
        let! iocs_data := load_ioc_list file in
        let! iocs := lift (Dyn.iter iocs_data) in
        let! allowed_iocs := lift (names_of iocs) in
        let! ioc_configs := lift (configs_of iocs ∅) in
        let! services := load_services_with_ingress file in
        print ("Filtering to IOCs listed in " +:+ file +:+ ": " +:+ Dyn.repr (YSeq allowed_iocs)) ;;
        print ("Found " +:+ str_int (Z.of_nat (length services)) +:+ " services with ingress enabled") ;;
        ret (Some allowed_iocs, ioc_configs, services)
      else ret (None, ∅, [])
  | None => ret (None, ∅, [])
  end.

(** Lines 76-83: the directories to process. *)
Definition select_ioc_dirs (iocinfo_dir : string) (allowed_iocs : option (list yaml))
  : M (list string) :=
  let! listing := os_listdir iocinfo_dir in
  let! ioc_dirs := filter_io (fun d => os_path_isdir (os_path_join iocinfo_dir d)) listing in
  match allowed_iocs with
  | Some ((_ :: _) as names) =>
      let ioc_dirs' := List.filter (allowed names) ioc_dirs in
      print ("Processing " +:+ str_int (Z.of_nat (length ioc_dirs')) +:+ " IOCs: "
             +:+ Dyn.repr (YSeq (map YStr ioc_dirs'))) ;;
      ret ioc_dirs'
  | _ => ret ioc_dirs
  end.

(** [f.read()] of an optional file, [""] when it is absent. *)
Definition read_if_exists (path : string) : M string :=
  let! present := os_path_exists path in
  if present : bool then read_text path else ret "".

(** Lines 86-131: what the page of [ioc_name] is made of. *)
Definition read_ioc (iocinfo_dir : string) (ioc_configs : gmap string yaml) (ioc_name : string)
  : M ioc_inputs :=
  let ioc_path := os_path_join iocinfo_dir ioc_name in
  let start_log := os_path_join ioc_path "start.log" in
  let! metadata := extract_ioc_metadata start_log in
  let devgroup := default "other" (metadata !! "IOC Device Group") in
  let ioc_asset := default "" (metadata !! "IOC Asset") in
  let! log_text := read_if_exists start_log in
  let start_log_content := make_urls_clickable log_text in
  let! listing := os_listdir ioc_path in
  let yaml_files := List.filter (fun f => endswith f ".yaml") listing in
  let! yaml_content :=
    match yaml_files with
    | first :: _ => read_text (os_path_join ioc_path first)
    | [] => ret ""
    end in
  let! stcmd_content := read_if_exists (os_path_join ioc_path "st.cmd") in
  let pvlist_path := os_path_join ioc_path "pvlist.txt" in
  let! has_pvlist := os_path_exists pvlist_path in
  let! (pvlist_content, pv_count) :=
    if has_pvlist : bool then
      let! text := read_text pvlist_path in
      ret (text, count_pvs text)
    else ret ("", 0%nat) in
  let! ioc_desc := lift (description_of ioc_configs ioc_name) in
  ret (IocInputs devgroup ioc_asset start_log_content yaml_content stcmd_content
                 pvlist_content pv_count ioc_desc).

(** The body of the loop of lines 85-208. *)
Definition process_ioc (iocinfo_dir control_dir : string) (ioc_configs : gmap string yaml)
  (ioc_name : string) : M unit :=
  let! i := read_ioc iocinfo_dir ioc_configs ioc_name in
  let md_path := os_path_join control_dir (ioc_name +:+ ".md") in
  let! date := now_isoformat in
  write_text md_path (ioc_md_content ioc_name date i) ;;
  let asset_info :=
    if nonempty (ioc_asset i) then " | Asset: " +:+ take 40 (ioc_asset i) +:+ "..." else "" in
  print ("Updated: " +:+ md_path +:+ " (PVs: " +:+ str_int (Z.of_nat (pv_count i)) +:+ ")"
         +:+ asset_info).

(** The body of the loop of lines 211-254. *)
Definition process_service (services_dir : option string) (s : service) : M unit :=
  let name := Dyn.str (service_name s) in
  let! service_desc := lift (Dyn.get (service_config s) "desc" default_service_desc) in
  let! ingress := lift (has_ingress (service_config s)) in
  let! has_loadbalancer := lift (Dyn.contains "loadbalancer" (service_config s)) in
  let! dir := lift (match services_dir with Some d => Ok d | None => Raise TypeError end) in
  let md_path := os_path_join dir (name +:+ ".md") in
  let! connection := lift (connection_info ingress has_loadbalancer s) in
  let! date := now_isoformat in
  let md_content := service_md_content name date connection (Dyn.str service_desc) in
  os_makedirs dir ;;
  write_text md_path md_content ;;
  print ("Updated: " +:+ md_path +:+ " (Service: " +:+ service_url s +:+ ")").

Definition main (iocinfo_dir control_dir : string) (values_file services_dir : option string)
  : M unit :=
  let! (allowed_iocs, ioc_configs, services) := load_config values_file in
  let! ioc_dirs := select_ioc_dirs iocinfo_dir allowed_iocs in
  for_each ioc_dirs (process_ioc iocinfo_dir control_dir ioc_configs) ;;
  for_each services (process_service services_dir) ;;
  print "Done!".

End Script.

(** * Vocabulary of the specification *)

(** The notions the specification speaks of, defined on their own so that
    the code can be compared with them. *)

(** ** Paths of the files of a run *)

Definition start_log_path (iocinfo_dir ioc_name : string) : string :=
  os_path_join (os_path_join iocinfo_dir ioc_name) "start.log".

Definition pvlist_path (iocinfo_dir ioc_name : string) : string :=
  os_path_join (os_path_join iocinfo_dir ioc_name) "pvlist.txt".

(** The output file of an IOC and of a service. *)
Definition ioc_md_path (control_dir ioc_name : string) : string :=
  os_path_join control_dir (ioc_name +:+ ".md").

Definition service_md_path (dir : string) (s : service) : string :=
  os_path_join dir (Dyn.str (service_name s) +:+ ".md").

(** ** Metadata *)

(** [line] contains a colon; the text before its first colon, trimmed, is
    [key] and the text after it, trimmed, is [value]. *)
Definition colon_line (line key value : string) : Prop :=
  exists k v, line = k +:+ ":" +:+ v /\ contains_char ":" k = false
              /\ key = strip k /\ value = strip v.

(** The last line of [lines] that binds [key] binds it to [value]. *)
Definition last_binding (lines : list string) (key value : string) : Prop :=
  exists pre line post,
    lines = pre ++ line :: post /\ colon_line line key value
    /\ forall l v, In l post -> ~ colon_line l key v.

(** ** URLs in a text *)

(** No character of [s] is white space. *)
Definition no_space (s : string) : Prop :=
  forall c, In c (list_ascii_of_string s) -> isspace c = false.

(** [s] is empty or starts with white space. *)
Definition at_space_or_end (s : string) : Prop :=
  match s with
  | EmptyString => True
  | String c _ => isspace c = true
  end.

(** [text] starts with the URL [url], and [rest] follows it: [url] is
    [http://] or [https://] and then one or more characters that are not
    white space, as many as there are before white space or the end. *)
Definition url_at_head (text url rest : string) : Prop :=
  exists scheme body,
    (scheme = "http://" \/ scheme = "https://")
    /\ url = scheme +:+ body /\ text = url +:+ rest
    /\ body <> "" /\ no_space body /\ at_space_or_end rest.

(** [out] is [text] with every such URL, found from the left, replaced by
    the markdown link [[url](url)], and every other character kept. *)
Inductive linkified : string -> string -> Prop :=
| linkified_end : linkified "" ""
| linkified_url (url rest out : string) :
    url_at_head (url +:+ rest) url rest ->
    linkified rest out ->
    linkified (url +:+ rest) ("[" +:+ url +:+ "](" +:+ url +:+ ")" +:+ out)
| linkified_char (c : ascii) (text out : string) :
    (forall url rest, ~ url_at_head (String c text) url rest) ->
    linkified text out ->
    linkified (String c text) (String c out).

(** ** Process variables *)

(** A line with a character that is not white space, and the number of such
    lines in a text. *)
Fixpoint has_nonspace (line : string) : bool :=
  match line with
  | EmptyString => false
  | String c line' => negb (isspace c) || has_nonspace line'
  end.

Definition nonblank_lines (text : string) : nat :=
  length (List.filter has_nonspace (split "010" None text)).

(** For the proof: whether the first line is not blank and how many of the
    others are; the total; and the same for a text with one more character
    in front. *)
Definition line_stats (lines : list string) : bool * nat :=
  (has_nonspace (hd "" lines), length (List.filter has_nonspace (tl lines))).

Definition stats_total (st : bool * nat) : nat :=
  ((if fst st then 1 else 0) + snd st)%nat.

Definition stats_step (c : ascii) (st : bool * nat) : bool * nat :=
  if Ascii.eqb c "010" then (false, stats_total st)
  else (negb (isspace c) || fst st, snd st).

(** ** Services *)

(** The service map of the configuration, [epicsConfiguration.services]. *)
Definition service_map (values : yaml) : list (yaml * yaml) :=
  match Dyn.get values "epicsConfiguration" (YMap []) with
  | Ok epics =>
      match Dyn.get epics "services" (YMap []) with
      | Ok (YMap services) => services
      | _ => []
      end
  | Raise _ => []
  end.

(** The entry of the service map a record was made from. *)
Definition entry_of (s : service) : yaml * yaml := (service_name s, service_config s).

(** Ingress is enabled in a service record: the [enable_ingress] flag is
    truthy, or the nested [ingress] object has a truthy [enabled] flag. *)
Definition ingress_enabled (record : list (yaml * yaml)) : bool :=
  Dyn.truthy (default YNull (Dyn.dict_get record "enable_ingress"))
  || match Dyn.dict_get record "ingress" with
     | Some (YMap ingress) => Dyn.truthy (default YNull (Dyn.dict_get ingress "enabled"))
     | _ => false
     end.

(** A service qualifies with ingress enabled or a [loadbalancer] key. *)
Definition qualifies (service_config : yaml) : bool :=
  match service_config with
  | YMap record => ingress_enabled record || Dyn.dict_has record "loadbalancer"
  | _ => false
  end.

(** A top-level field of the configuration as it is written in a URL, the
    empty string when the field is absent. *)
Definition top_level (values : yaml) (field : string) : string :=
  match values with
  | YMap entries => Dyn.str (default (YStr "") (Dyn.dict_get entries field))
  | _ => ""
  end.

(** The URL of a service [name] with the entries [record], before the path. *)
Definition base_url (values name : yaml) (record : list (yaml * yaml)) : string :=
  match Dyn.dict_get record "loadbalancer" with
  | Some address => "http://" +:+ Dyn.str address
  | None =>
      "http://" +:+ top_level values "beamline" +:+ "-" +:+ Dyn.str name
      +:+ "." +:+ top_level values "epik8namespace"
  end.

(** A service record the loader can read: a mapping whose nested [ingress]
    value, when it is looked at, is a mapping, and whose [path], when the
    record qualifies, is a string. *)
Definition readable_record (service_config : yaml) : Prop :=
  exists record,
    service_config = YMap record
    /\ (Dyn.truthy (default YNull (Dyn.dict_get record "enable_ingress")) = true
        \/ Dyn.dict_get record "ingress" = None
        \/ exists ingress, Dyn.dict_get record "ingress" = Some (YMap ingress))
    /\ (Dyn.dict_get record "path" = None
        \/ exists path, Dyn.dict_get record "path" = Some (YStr path)).

(** The connection block of a service page: the address alone for a load
    balancer without ingress, the link otherwise. *)
Definition connection_ip_line (address : yaml) : string :=
  "**Connection IP:** " +:+ Dyn.str address.

Definition service_url_block (url : string) : string :=
  "## Service URL" +:+ nl +:+ nl +:+ "[" +:+ url +:+ "](" +:+ url +:+ ")".

Definition connection_block (record : list (yaml * yaml)) (url : string) : string :=
  match Dyn.dict_get record "loadbalancer" with
  | Some address =>
      if ingress_enabled record then service_url_block url else connection_ip_line address
  | None => service_url_block url
  end.

(** ** Effects *)

(** A computation that leaves the world as it is, and one that writes no
    file. *)
Definition readonly {A} (m : M A) : Prop :=
  forall w r w', m w = (r, w') -> w' = w.

Definition keeps_written {A} (m : M A) : Prop :=
  forall w r w', m w = (r, w') -> written w' = written w.

(** ** Two runs *)

(** A configuration with one IOC and three services, and a directory with
    two IOC directories and a file.  [safe_load] parses this one text. *)
Module Sample.

Definition yaml_text : string :=
  "{beamline: b1, epik8namespace: ns, epicsConfiguration: {iocs: [{name: devA, desc: Magnet power supply}], services: {svc: {ingress: {enabled: true}, path: /ui}, off: {enable_ingress: false}, lb: {loadbalancer: 10.0.0.5}}}}".

Definition svc_record : yaml :=
  YMap [(YStr "ingress", YMap [(YStr "enabled", YBool true)]); (YStr "path", YStr "/ui")].

Definition lb_record : yaml := YMap [(YStr "loadbalancer", YStr "10.0.0.5")].

Definition devA_record : yaml :=
  YMap [(YStr "name", YStr "devA"); (YStr "desc", YStr "Magnet power supply")].

Definition values : yaml :=
  YMap [(YStr "beamline", YStr "b1");
        (YStr "epik8namespace", YStr "ns");
        (YStr "epicsConfiguration",
         YMap [(YStr "iocs", YSeq [devA_record]);
               (YStr "services",
                YMap [(YStr "svc", svc_record);
                      (YStr "off", YMap [(YStr "enable_ingress", YBool false)]);
                      (YStr "lb", lb_record)])])].

Definition safe_load (text : string) : result yaml :=
  if String.eqb text yaml_text then Ok values else Raise YAMLError.

Definition svc : service := Service (YStr "svc") svc_record "http://b1-svc.ns/ui".
Definition lb : service := Service (YStr "lb") lb_record "http://10.0.0.5".

Definition ioc_configs : gmap string yaml := {[ "devA" := devA_record ]}.

Definition log_lines : list string :=
  ["IOC Device Group: mag" +:+ nl;
   "IOC Asset: http://old/devA" +:+ nl;
   "iocInit done" +:+ nl;
   "IOC Asset : http://docs/devA " +:+ nl;
   "see https://epics.anl.gov for help" +:+ nl].

Definition log_text : string := String.concat "" log_lines.

Definition start : world :=
  World (Dir [("values.yaml", File yaml_text);
              ("iocinfo",
               Dir [("devA",
                     Dir [("start.log", File log_text);
                          ("pvlist.txt", File ("A:PV1" +:+ nl +:+ nl +:+ "A:PV2" +:+ nl))]);
                    ("devB", Dir []);
                    ("README", File "not a directory")]);
              ("control", Dir [])])
        [] (fun n => "2024-05-0" +:+ str_int (Z.of_nat (S n))) 0 [] [].

Definition after_devA : world :=
  snd (process_ioc "iocinfo" "control" ioc_configs "devA" start).

Definition after_lb : world := snd (process_service (Some "services") lb start).

Definition run : result unit * world :=
  main safe_load "iocinfo" "control" (Some "values.yaml") (Some "services") start.

End Sample.

(** A configuration whose list of IOCs is empty, and one IOC directory. *)
Module EmptyList.

Definition yaml_text : string := "{beamline: b1, epicsConfiguration: {iocs: []}}".

Definition values : yaml :=
  YMap [(YStr "beamline", YStr "b1");
        (YStr "epicsConfiguration", YMap [(YStr "iocs", YSeq [])])].

Definition safe_load (text : string) : result yaml :=
  if String.eqb text yaml_text then Ok values else Raise YAMLError.

Definition start : world :=
  World (Dir [("values.yaml", File yaml_text);
              ("iocinfo", Dir [("devA", Dir [("start.log", File "IOC Device Group: mag")])]);
              ("control", Dir [])])
        [] (fun n => "2024-05-0" +:+ str_int (Z.of_nat (S n))) 0 [] [].

Definition run : result unit * world :=
  main safe_load "iocinfo" "control" (Some "values.yaml") (Some "services") start.

End EmptyList.

(** ** Further notions *)

(** Somewhere in [s] the pattern of [make_urls_clickable] matches. *)
Definition url_inside (s : string) : Prop :=
  exists a b url, s = a +:+ b /\ match_url b = Some url.

(** The text of the file at [path], [""] when there is no file, and
    whether [path] is a directory. *)
Definition file_text (w : world) (path : string) : string :=
  match Fs.stat w path with
  | Some (File text) => text
  | _ => ""
  end.

Definition is_dir (w : world) (path : string) : bool :=
  match Fs.stat w path with
  | Some (Dir _) => true
  | _ => false
  end.

(** A computation whose failure leaves the world as it was, and one that
    does not fail. *)
Definition fails_unchanged {A} (m : M A) : Prop :=
  forall w e w', m w = (Raise e, w') -> w' = w.

Definition never_raises {A} (m : M A) : Prop :=
  forall w e w', m w <> (Raise e, w').

(** The first entry with the extension [.yaml], in the order of the listing. *)
Definition first_yaml (listing : list string) : option string :=
  hd_error (List.filter (fun f => endswith f ".yaml") listing).

(** The name of an entry of the list of IOCs is the [str] [name]. *)
Definition named (name : string) (ioc : yaml) : Prop :=
  Dyn.getitem ioc "name" = Ok (YStr name).

(** The directories a run selects: the entries of [iocinfo_dir] that are
    directories, and of these the ones named in a list that is not empty. *)
Definition selected (allowed_iocs : option (list yaml)) (dirs : list string) : list string :=
  match allowed_iocs with
  | Some ((_ :: _) as names) => List.filter (allowed names) dirs
  | _ => dirs
  end.

(** The files are where they were after the configuration is loaded. *)
Definition keeps_files {A} (m : M A) : Prop :=
  forall w r w', m w = (r, w') -> root w' = root w /\ cwd w' = cwd w.

(** A record whose ingress cannot be told: not a mapping, or a mapping
    whose [enable_ingress] is not truthy and whose [ingress] is there and is
    not a mapping. *)
Definition unreadable_ingress (service_config : yaml) : Prop :=
  match service_config with
  | YMap record =>
      Dyn.truthy (default YNull (Dyn.dict_get record "enable_ingress")) = false
      /\ exists v, Dyn.dict_get record "ingress" = Some v /\ forall m, v <> YMap m
  | _ => True
  end.

(** ** More runs *)

Module Cases.


(** Three IOC directories; in the second one [start.log] is a directory,
    which cannot be opened. *)
Definition broken : world :=
  World (Dir [("iocinfo",
               Dir [("devA", Dir [("start.log", File "IOC Device Group: mag")]);
                    ("devC", Dir [("start.log", Dir [])]);
                    ("devB", Dir [])]);
              ("control", Dir [])])
        [] (fun n => "2024-05-0" +:+ str_int (Z.of_nat (S n))) 0 [] [].

Definition after_devA : world :=
  snd (process_ioc "iocinfo" "control" ∅ "devA" broken).


(** Service maps: [{ok: {enable_ingress: true, ingress: yes},
    bad: {ingress: yes}, lb: {loadbalancer: h}}] and
    [{web: {enable_ingress: true, path: 8080}}]. *)
Definition ok_record : yaml :=
  YMap [(YStr "enable_ingress", YBool true); (YStr "ingress", YStr "yes")].

Definition bad_record : yaml := YMap [(YStr "ingress", YStr "yes")].

Definition bad_ingress : list (yaml * yaml) :=
  [(YStr "epicsConfiguration",
    YMap [(YStr "services",
           YMap [(YStr "ok", ok_record); (YStr "bad", bad_record);
                 (YStr "lb", YMap [(YStr "loadbalancer", YStr "h")])])])].

Definition port_record : list (yaml * yaml) :=
  [(YStr "enable_ingress", YBool true); (YStr "path", YInt 8080)].

Definition bad_path : list (yaml * yaml) :=
  [(YStr "epicsConfiguration",
    YMap [(YStr "services", YMap [(YStr "web", YMap port_record)])])].

(** A service whose name starts with a slash, and a root with [tmp]. *)
Definition absolute : service :=
  Service (YStr "/tmp/x") (YMap [(YStr "loadbalancer", YStr "h")]) "http://h".

Definition with_tmp : world :=
  World (Dir [("tmp", Dir [])]) [] (fun n => "2024-05-0" +:+ str_int (Z.of_nat (S n))) 0 [] [].

End Cases.

(** * Proofs *)

(** ** The embedding on small inputs *)

Example strip_ex : Py.strip ("  a b " +:+ Py.nl) = "a b".
Proof. reflexivity. Qed.
Example split_ex1 : Py.split ":" (Some 1) "a: b:c" = ["a"; " b:c"].
Proof. reflexivity. Qed.
Example split_ex2 : Py.split ":" None ":a:" = [""; "a"; ""].
Proof. reflexivity. Qed.
Example readlines_ex : Py.readlines ("a" +:+ Py.nl +:+ Py.nl +:+ "b") = ["a" +:+ Py.nl; Py.nl; "b"].
Proof. reflexivity. Qed.
Example str_int_ex : Py.str_int 0 = "0" /\ Py.str_int (-12) = "-12" /\ Py.str_int 305 = "305".
Proof. repeat split; reflexivity. Qed.
Example endswith_ex : Py.endswith "a.yaml" ".yaml" = true /\ Py.endswith "yaml" ".yaml" = false.
Proof. split; reflexivity. Qed.

Example repr_ex :
  Dyn.str (YMap [(YStr "a", YSeq [YInt 1; YNull; YBool true]); (YStr "it's", YStr ("x" +:+ Py.nl))])
  = "{'a': [1, None, True], " +:+ Py.dq +:+ "it's" +:+ Py.dq +:+ ": 'x\n'}".
Proof. reflexivity. Qed.

Example make_urls_clickable_ex :
  make_urls_clickable ("a https://x.y/z?q=1" +:+ nl +:+ "http:// http://b")
  = "a [https://x.y/z?q=1](https://x.y/z?q=1)" +:+ nl +:+ "http:// [http://b](http://b)".
Proof. reflexivity. Qed.

Example services_ex :
  services_with_ingress
    (YMap [(YStr "beamline", YStr "b1"); (YStr "epik8namespace", YStr "ns");
           (YStr "epicsConfiguration",
            YMap [(YStr "services",
                   YMap [(YStr "svc", YMap [(YStr "ingress", YMap [(YStr "enabled", YBool true)]);
                                             (YStr "path", YStr "/ui")]);
                         (YStr "off", YMap [(YStr "enable_ingress", YBool false)]);
                         (YStr "lb", YMap [(YStr "loadbalancer", YStr "10.0.0.5")])])])])
  = Ok [Service (YStr "svc") (YMap [(YStr "ingress", YMap [(YStr "enabled", YBool true)]);
                                    (YStr "path", YStr "/ui")]) "http://b1-svc.ns/ui";
        Service (YStr "lb") (YMap [(YStr "loadbalancer", YStr "10.0.0.5")]) "http://10.0.0.5"].
Proof. reflexivity. Qed.

(** ** Strings *)

Lemma append_assoc (a b c : string) : (a +:+ b) +:+ c = a +:+ (b +:+ c).
Proof. induction a as [|x a IH]; simpl; [reflexivity | now rewrite IH]. Qed.

Lemma contains_char_app (c : ascii) (a b : string) :
  contains_char c (a +:+ b) = contains_char c a || contains_char c b.
Proof.
  induction a as [|x a IH]; simpl; [reflexivity |].
  rewrite IH. now rewrite orb_assoc.
Qed.

Lemma split_zero (sep : ascii) (s : string) : split sep (Some 0%nat) s = [s].
Proof.
  induction s as [|c s IH]; simpl; [reflexivity |].
  rewrite IH. now destruct (Ascii.eqb c sep).
Qed.

(** [split(sep, 1)] cuts at the first separator. *)
Lemma split_first (sep : ascii) (k v : string) :
  contains_char sep k = false ->
  split sep (Some 1%nat) (k +:+ String sep v) = [k; v].
Proof.
  induction k as [|c k IH]; simpl; intros Hk.
  - rewrite Ascii.eqb_refl. simpl. now rewrite split_zero.
  - apply orb_false_elim in Hk as [Hc Hk].
    rewrite Hc. simpl. now rewrite (IH Hk).
Qed.

(** A text with a separator has a first one. *)
Lemma contains_char_first (c : ascii) (s : string) :
  contains_char c s = true ->
  exists k v, s = k +:+ String c v /\ contains_char c k = false.
Proof.
  induction s as [|d s IH]; simpl; intros H; [discriminate |].
  destruct (Ascii.eqb d c) eqn:Hd.
  - apply Ascii.eqb_eq in Hd as ->. now exists "", s.
  - destruct (IH H) as (k & v & -> & Hk).
    exists (String d k), v. simpl. now rewrite Hd, Hk.
Qed.

(** ** [extract_ioc_metadata] *)

Lemma metadata_line_colon (m : gmap string string) (line key value : string) :
  colon_line line key value ->
  metadata_line m line = Ok (<[key := value]> m).
Proof.
  intros (k & v & -> & Hk & -> & ->).
  unfold metadata_line.
  rewrite contains_char_app. simpl. rewrite orb_true_r.
  now rewrite (split_first ":" k v Hk).
Qed.

Lemma metadata_line_plain (m : gmap string string) (line : string) :
  contains_char ":" line = false -> metadata_line m line = Ok m.
Proof. intros H. unfold metadata_line. now rewrite H. Qed.

(** A line is a colon line (for exactly one key and value) or has no colon. *)
Lemma line_cases (line : string) :
  (exists key value, colon_line line key value) \/ contains_char ":" line = false.
Proof.
  destruct (contains_char ":" line) eqn:H; [left | now right].
  destruct (contains_char_first _ _ H) as (k & v & -> & Hk).
  exists (strip k), (strip v), k, v. auto.
Qed.

Lemma append_first_sep (c : ascii) (k v k' v' : string) :
  contains_char c k = false -> contains_char c k' = false ->
  k +:+ String c v = k' +:+ String c v' -> k = k' /\ v = v'.
Proof.
  revert k'. induction k as [|x k IH]; intros [|y k']; simpl; intros Hk Hk' E.
  - now inversion E.
  - inversion E; subst. now rewrite Ascii.eqb_refl in Hk'.
  - inversion E; subst. now rewrite Ascii.eqb_refl in Hk.
  - inversion E; subst.
    apply orb_false_elim in Hk as [_ Hk]. apply orb_false_elim in Hk' as [_ Hk'].
    destruct (IH k' Hk Hk' H1) as [-> ->]. auto.
Qed.

Lemma colon_line_fun (line key value key' value' : string) :
  colon_line line key value -> colon_line line key' value' ->
  key = key' /\ value = value'.
Proof.
  intros (k & v & -> & Hk & -> & ->) (k' & v' & E & Hk' & -> & ->).
  destruct (append_first_sep _ _ _ _ _ Hk Hk' E) as [-> ->]. auto.
Qed.

(** The loop never raises. *)
Lemma metadata_lines_total (m : gmap string string) (lines : list string) :
  exists m', metadata_lines m lines = Ok m'.
Proof.
  revert m. induction lines as [|line lines IH]; intros m; simpl; [eauto |].
  destruct (line_cases line) as [(key & value & H) | H].
  - rewrite (metadata_line_colon _ _ _ _ H). simpl. apply IH.
  - rewrite (metadata_line_plain _ _ H). simpl. apply IH.
Qed.

Lemma last_binding_cons (line : string) (lines : list string) (key value : string) :
  last_binding (line :: lines) key value <->
  last_binding lines key value
  \/ (colon_line line key value /\ forall l v, In l lines -> ~ colon_line l key v).
Proof.
  split.
  - intros (pre & l & post & E & Hl & Hpost). destruct pre as [|x pre]; simpl in E.
    + injection E as -> ->. now right.
    + injection E as -> ->. left. now exists pre, l, post.
  - intros [(pre & l & post & -> & Hl & Hpost) | [Hl Hpost]].
    + now exists (line :: pre), l, post.
    + now exists [], line, lines.
Qed.

Lemma metadata_lines_lookup (lines : list string) :
  forall m0 m, metadata_lines m0 lines = Ok m ->
  forall key value,
    m !! key = Some value <->
    last_binding lines key value
    \/ (m0 !! key = Some value /\ forall l v, In l lines -> ~ colon_line l key v).
Proof.
  induction lines as [|line lines IH]; intros m0 m; simpl.
  - intros [= ->] key value. split.
    + intros H. right. split; [exact H | intros l v []].
    + intros [(pre & l & post & E & _) | [H _]]; [now destruct pre | exact H].
  - destruct (line_cases line) as [(k & v & Hline) | Hline].
    + rewrite (metadata_line_colon _ _ _ _ Hline). simpl. intros E key value.
      rewrite (IH _ _ E key value), last_binding_cons. split.
      * intros [H | [H Hno]]; [now left; left |].
        destruct (decide (k = key)) as [-> | Hne].
        -- rewrite lookup_insert_eq in H. injection H as ->. left. now right.
        -- rewrite lookup_insert_ne in H by exact Hne. right. split; [exact H |].
           intros l v' [<- | Hl] Hc; [| exact (Hno l v' Hl Hc)].
           destruct (colon_line_fun _ _ _ _ _ Hline Hc). contradiction.
      * intros [[H | [Hc Hno]] | [H Hno]].
        -- now left.
        -- destruct (colon_line_fun _ _ _ _ _ Hline Hc) as [-> ->].
           right. split; [apply lookup_insert_eq | exact Hno].
        -- right. split; [| intros l v' Hl; apply Hno; now right].
           rewrite lookup_insert_ne; [exact H |].
           intros ->. exact (Hno line v (or_introl eq_refl) Hline).
    + rewrite (metadata_line_plain _ _ Hline). simpl. intros E key value.
      assert (Hnc : forall v', ~ colon_line line key v').
      { intros v' (k & x & -> & _). rewrite contains_char_app in Hline. simpl in Hline.
        now rewrite orb_true_r in Hline. }
      rewrite (IH _ _ E key value), last_binding_cons. split.
      * intros [H | [H Hno]]; [now left; left |].
        right. split; [exact H |]. intros l v' [<- | Hl]; [apply Hnc | now apply Hno].
      * intros [[H | [Hc _]] | [H Hno]].
        -- now left.
        -- now destruct (Hnc value).
        -- right. split; [exact H | intros l v' Hl; apply Hno; now right].
Qed.

(** What the function returns for a file that is there, and for none. *)
Lemma extract_ioc_metadata_file (w : world) (path text : string) :
  Fs.stat w path = Some (File text) ->
  extract_ioc_metadata path w = (metadata_lines ∅ (readlines text), w).
Proof.
  intros H. unfold extract_ioc_metadata, bind, os_path_exists, read_text, lift.
  rewrite H. rewrite bool_decide_eq_true_2 by eauto. cbn. now rewrite H.
Qed.

Lemma extract_ioc_metadata_absent (w : world) (path : string) :
  Fs.stat w path = None -> extract_ioc_metadata path w = (Ok ∅, w).
Proof.
  intros H. unfold extract_ioc_metadata, bind, os_path_exists.
  rewrite H. rewrite bool_decide_eq_false_2 by (now intros [x Hx]). reflexivity.
Qed.

(** C5: for every log file, parsing returns a mapping, and the mapping
    holds [key -> value] exactly when the last line that contains a colon
    and whose text before the first colon trims to [key] has the text after
    that colon trimming to [value]: each line with a colon is split at its
    first colon into a trimmed key and a trimmed value, and a line without
    a colon binds nothing.  A line [K: V] gives the mapping [K -> V]. *)
Theorem extract_ioc_metadata_split_lines (w : world) (path text : string) :
  Fs.stat w path = Some (File text) ->
  (exists m, extract_ioc_metadata path w = (Ok m, w)
             /\ (forall key value,
                   m !! key = Some value <-> last_binding (readlines text) key value)
             /\ (forall key,
                   (forall line value, In line (readlines text) -> ~ colon_line line key value) ->
                   m !! key = None))
  /\ (forall line rest m, contains_char ":" line = false ->
        metadata_lines m (line :: rest) = metadata_lines m rest)
  /\ metadata_lines ∅ (readlines ("K: V" +:+ nl)) = Ok {[ "K" := "V" ]}.
Proof.
  intros Hfile. split; [| split].
  - destruct (metadata_lines_total ∅ (readlines text)) as [m Hm].
    exists m. rewrite (extract_ioc_metadata_file _ _ _ Hfile), Hm.
    split; [reflexivity |].
    assert (Hl : forall key value,
               m !! key = Some value <-> last_binding (readlines text) key value).
    { intros key value. rewrite (metadata_lines_lookup _ _ _ Hm key value). split.
      - intros [H | [H _]]; [exact H | now rewrite lookup_empty in H].
      - now left. }
    split; [exact Hl |].
    intros key Hno. destruct (m !! key) as [value|] eqn:E; [| reflexivity].
    apply Hl in E as (pre & line & post & El & Hc & _).
    destruct (Hno line value); [| exact Hc]. rewrite El. apply in_elt.
  - intros line rest m H. simpl. now rewrite (metadata_line_plain _ _ H).
  - reflexivity.
Qed.

Lemma extract_ioc_metadata_split_lines_witness :
  exists m,
    extract_ioc_metadata "iocinfo/devA/start.log" Sample.start = (Ok m, Sample.start)
    /\ forall key value,
         m !! key = Some value <-> last_binding (readlines Sample.log_text) key value.
Proof.
  destruct (extract_ioc_metadata_split_lines Sample.start "iocinfo/devA/start.log"
              Sample.log_text) as [(m & Hm & Hl & _) _].
  - reflexivity.
  - exists m. split; [exact Hm | exact Hl].
Defined.

(** C10: when two lines of the log with a colon have the same trimmed key
    and no later line binds that key, the metadata maps the key to the
    trimmed value of the later line. *)
Theorem extract_ioc_metadata_last_wins (w : world) (path text : string)
  (pre mid post : list string) (line1 line2 key value1 value2 : string) :
  Fs.stat w path = Some (File text) ->
  readlines text = pre ++ line1 :: mid ++ line2 :: post ->
  colon_line line1 key value1 ->
  colon_line line2 key value2 ->
  (forall l v, In l post -> ~ colon_line l key v) ->
  exists m, extract_ioc_metadata path w = (Ok m, w) /\ m !! key = Some value2.
Proof.
  intros Hfile Hlines _ H2 Hpost.
  destruct (metadata_lines_total ∅ (readlines text)) as [m Hm].
  exists m. rewrite (extract_ioc_metadata_file _ _ _ Hfile), Hm.
  split; [reflexivity |].
  apply (metadata_lines_lookup _ _ _ Hm). left.
  exists (pre ++ line1 :: mid), line2, post. split; [| now split].
  now rewrite Hlines, <- app_assoc.
Qed.

(** The key of a line is the trimmed text before its first colon. *)
Lemma colon_line_key (k v key value : string) :
  contains_char ":" k = false ->
  colon_line (k +:+ ":" +:+ v) key value -> key = strip k.
Proof.
  intros Hk H.
  assert (H0 : colon_line (k +:+ ":" +:+ v) (strip k) (strip v)) by (exists k, v; auto).
  now destruct (colon_line_fun _ _ _ _ _ H H0).
Qed.

Lemma extract_ioc_metadata_last_wins_witness :
  exists m,
    extract_ioc_metadata "iocinfo/devA/start.log" Sample.start = (Ok m, Sample.start)
    /\ m !! "IOC Asset" = Some "http://docs/devA".
Proof.
  apply (extract_ioc_metadata_last_wins Sample.start "iocinfo/devA/start.log" Sample.log_text
           ["IOC Device Group: mag" +:+ nl] ["iocInit done" +:+ nl]
           ["see https://epics.anl.gov for help" +:+ nl]
           ("IOC Asset: http://old/devA" +:+ nl) ("IOC Asset : http://docs/devA " +:+ nl)
           "IOC Asset" "http://old/devA" "http://docs/devA").
  - reflexivity.
  - reflexivity.
  - exists "IOC Asset", (" http://old/devA" +:+ nl). repeat split; reflexivity.
  - exists "IOC Asset ", (" http://docs/devA " +:+ nl). repeat split; reflexivity.
  - intros l v [<- | []] H.
    apply (colon_line_key "see https" ("//epics.anl.gov for help" +:+ nl)) in H;
      [discriminate | reflexivity].
Defined.

(** ** [make_urls_clickable] *)

Lemma removeprefix_app (p r : string) : removeprefix p (p +:+ r) = Some r.
Proof.
  induction p as [|a p IH]; simpl; [reflexivity |].
  now rewrite Ascii.eqb_refl.
Qed.

Lemma removeprefix_Some (p s r : string) : removeprefix p s = Some r -> s = p +:+ r.
Proof.
  revert s. induction p as [|a p IH]; intros s; simpl.
  - now intros [= ->].
  - destruct s as [|b s]; [discriminate |].
    destruct (Ascii.eqb a b) eqn:E; [| discriminate].
    apply Ascii.eqb_eq in E as ->. intros H. now rewrite (IH _ H).
Qed.

Lemma nonspace_run_app (body rest : string) :
  no_space body -> at_space_or_end rest -> nonspace_run (body +:+ rest) = body.
Proof.
  intros Hb Hr. induction body as [|c body IH]; simpl.
  - destruct rest as [|d rest]; simpl in *; [reflexivity | now rewrite Hr].
  - rewrite (Hb c) by now left.
    rewrite IH; [reflexivity |]. intros d Hd. apply Hb. now right.
Qed.

Lemma nonspace_run_split (s : string) :
  exists rest, s = nonspace_run s +:+ rest
               /\ no_space (nonspace_run s) /\ at_space_or_end rest.
Proof.
  induction s as [|c s (rest & E & Hn & Hr)]; simpl.
  - exists "". repeat split. intros c [].
  - destruct (isspace c) eqn:Hc.
    + exists (String c s). repeat split; [intros d [] | exact Hc].
    + exists rest. simpl. split; [now rewrite <- E |]. split; [| exact Hr].
      intros d [<- | Hd]; [exact Hc | now apply Hn].
Qed.

(** [match_url] finds the URL at the head of the text, when there is one. *)
Lemma match_url_Some (text url : string) :
  match_url text = Some url <-> exists rest, url_at_head text url rest.
Proof.
  unfold match_url. split.
  - intros H.
    assert (Hs : exists scheme r, (scheme = "http://" \/ scheme = "https://")
                   /\ text = scheme +:+ r
                   /\ match nonspace_run r with
                      | EmptyString => None
                      | run => Some (scheme +:+ run)
                      end = Some url).
    { destruct (removeprefix "https://" text) as [r|] eqn:E1.
      - exists "https://", r. split; [now right |]. split; [| exact H].
        now apply removeprefix_Some.
      - destruct (removeprefix "http://" text) as [r|] eqn:E2; [| discriminate].
        exists "http://", r. split; [now left |]. split; [| exact H].
        now apply removeprefix_Some. }
    destruct Hs as (scheme & r & Hs & -> & Hrun).
    destruct (nonspace_run_split r) as (rest & Er & Hn & Hr).
    destruct (nonspace_run r) as [|c run] eqn:Erun; [discriminate |].
    injection Hrun as <-.
    exists rest, scheme, (String c run). split; [exact Hs |]. split; [reflexivity |].
    split; [now rewrite append_assoc, <- Er |]. now repeat split.
  - intros (rest & scheme & body & Hs & -> & -> & Hne & Hn & Hr).
    rewrite append_assoc.
    destruct Hs as [-> | ->].
    + change (removeprefix "https://" ("http://" +:+ body +:+ rest)) with (@None string).
      rewrite (removeprefix_app "http://").
      rewrite (nonspace_run_app _ _ Hn Hr). now destruct body.
    + rewrite (removeprefix_app "https://").
      rewrite (nonspace_run_app _ _ Hn Hr). now destruct body.
Qed.

Lemma sub_urls_skip (a b : string) : sub_urls (String.length a) (a +:+ b) = sub_urls 0 b.
Proof. induction a as [|c a IH]; simpl; [reflexivity | exact IH]. Qed.

Lemma make_urls_clickable_url (text url rest : string) :
  url_at_head text url rest ->
  make_urls_clickable text
  = "[" +:+ url +:+ "](" +:+ url +:+ ")" +:+ make_urls_clickable rest.
Proof.
  intros H.
  assert (Hm : match_url text = Some url) by (apply match_url_Some; eauto).
  destruct H as (scheme & body & Hs & -> & -> & _).
  unfold make_urls_clickable.
  assert (Hc : exists c u, scheme +:+ body = String c u) by (destruct Hs as [-> | ->]; simpl; eauto).
  destruct Hc as (c & u & Eu). rewrite Eu in *.
  change (String c u +:+ rest) with (String c (u +:+ rest)) in *.
  cbn [sub_urls]. rewrite Hm.
  cbn [String.length]. rewrite Nat.sub_1_r, Nat.pred_succ.
  now rewrite sub_urls_skip.
Qed.

Lemma make_urls_clickable_char (c : ascii) (text : string) :
  (forall url rest, ~ url_at_head (String c text) url rest) ->
  make_urls_clickable (String c text) = String c (make_urls_clickable text).
Proof.
  intros H. unfold make_urls_clickable. cbn [sub_urls].
  destruct (match_url (String c text)) as [url|] eqn:E; [| reflexivity].
  apply match_url_Some in E as [rest E]. now destruct (H url rest).
Qed.

Lemma length_append (a b : string) :
  String.length (a +:+ b) = (String.length a + String.length b)%nat.
Proof. induction a as [|c a IH]; simpl; [reflexivity | now rewrite IH]. Qed.

Lemma make_urls_clickable_linkified (text : string) :
  linkified text (make_urls_clickable text).
Proof.
  remember (String.length text) as n eqn:Hn.
  revert text Hn. induction n as [n IH] using lt_wf_ind. intros text ->.
  destruct text as [|c text]; [constructor |].
  destruct (match_url (String c text)) as [url|] eqn:E.
  - pose proof E as E'. apply match_url_Some in E' as [rest H].
    rewrite (make_urls_clickable_url _ _ _ H).
    pose proof H as (scheme & body & Hs & Eu & Et & Hne & _).
    rewrite Et. apply linkified_url; [now rewrite <- Et |].
    apply (IH (String.length rest)); [| reflexivity].
    rewrite Et, length_append, Eu, length_append.
    destruct body; [contradiction |]. destruct Hs as [-> | ->]; simpl; lia.
  - assert (Hno : forall url rest, ~ url_at_head (String c text) url rest).
    { intros url rest H. assert (match_url (String c text) = Some url) by (apply match_url_Some; eauto).
      congruence. }
    rewrite (make_urls_clickable_char _ _ Hno).
    apply linkified_char; [exact Hno |].
    apply (IH (String.length text)); [simpl; lia | reflexivity].
Qed.

Lemma linkified_fun (text out : string) :
  linkified text out -> out = make_urls_clickable text.
Proof.
  induction 1 as [| url rest out H _ IH | c text out H _ IH].
  - reflexivity.
  - now rewrite (make_urls_clickable_url _ _ _ H), IH.
  - now rewrite (make_urls_clickable_char _ _ H), IH.
Qed.

(** C7: for every text, the transform is the rewriting of the text in
    which every URL found from the left ([http://] or [https://] followed
    by one or more characters that are not white space, up to the next white
    space or the end) becomes the markdown link [[url](url)] and every
    other character is kept; on [see http://x.io/a for details] it gives
    [see [http://x.io/a](http://x.io/a) for details]. *)
Theorem make_urls_clickable_spec (text : string) :
  (forall out, linkified text out <-> out = make_urls_clickable text)
  /\ make_urls_clickable "see http://x.io/a for details"
     = "see [http://x.io/a](http://x.io/a) for details".
Proof.
  split; [| reflexivity].
  intros out. split; [apply linkified_fun |].
  intros ->. apply make_urls_clickable_linkified.
Qed.

(** A text without the scheme has no URL anywhere. *)
Lemma contains_false_cons (sub : string) (c : ascii) (s : string) :
  contains sub (String c s) = false ->
  removeprefix sub (String c s) = None /\ contains sub s = false.
Proof.
  cbn [contains]. unfold startswith. intros H.
  apply orb_false_elim in H as [H1 H2]. split; [| exact H2].
  now destruct (removeprefix sub (String c s)).
Qed.

(** C8: a text in which neither [http://] nor [https://] occurs is
    returned unchanged, so that applying the transform twice is the same as
    applying it once. *)
Theorem make_urls_clickable_no_url (text : string) :
  contains "http://" text = false ->
  contains "https://" text = false ->
  make_urls_clickable text = text
  /\ make_urls_clickable (make_urls_clickable text) = make_urls_clickable text.
Proof.
  intros H1 H2.
  assert (E : make_urls_clickable text = text).
  { unfold make_urls_clickable. induction text as [|c text IH]; [reflexivity |].
    apply contains_false_cons in H1 as [P1 H1]. apply contains_false_cons in H2 as [P2 H2].
    cbn [sub_urls]. unfold match_url. rewrite P1, P2. now rewrite (IH H1 H2). }
  split; [exact E | now rewrite E].
Qed.

Lemma make_urls_clickable_no_url_witness :
  make_urls_clickable "IOC started, see httpd log"
  = "IOC started, see httpd log"
  /\ make_urls_clickable (make_urls_clickable "IOC started, see httpd log")
     = make_urls_clickable "IOC started, see httpd log".
Proof.
  apply (make_urls_clickable_no_url "IOC started, see httpd log"); reflexivity.
Defined.

(** ** Services *)

Lemma dict_has_get (m : list (yaml * yaml)) (key : string) :
  Dyn.dict_has m key = match Dyn.dict_get m key with Some _ => true | None => false end.
Proof.
  unfold Dyn.dict_has. destruct (Dyn.dict_get m key).
  - apply bool_decide_eq_true_2. eauto.
  - apply bool_decide_eq_false_2. now intros [x Hx].
Qed.

Lemma has_ingress_spec (service_config ingress : yaml) :
  has_ingress service_config = Ok ingress ->
  exists record, service_config = YMap record
                 /\ Dyn.truthy ingress = ingress_enabled record.
Proof.
  unfold has_ingress. destruct service_config as [| | | | |record]; try discriminate.
  simpl. intros H. exists record. split; [reflexivity |].
  unfold ingress_enabled, Dyn.or_else in *.
  destruct (Dyn.truthy (default YNull (Dyn.dict_get record "enable_ingress"))) eqn:E.
  - injection H as <-. now rewrite E.
  - simpl. destruct (Dyn.dict_get record "ingress") as [[| | | | |nested]|];
      simpl in H; try discriminate; now injection H as <-.
Qed.

Lemma ingress_or_loadbalancer_spec (service_config : yaml) (selected : bool) :
  ingress_or_loadbalancer service_config = Ok selected ->
  (exists record, service_config = YMap record) /\ selected = qualifies service_config.
Proof.
  unfold ingress_or_loadbalancer.
  destruct (has_ingress service_config) as [ingress|] eqn:E; [| discriminate].
  destruct (has_ingress_spec _ _ E) as (record & -> & Ht).
  simpl. intros H. split; [eauto |].
  unfold Dyn.or_else in H. rewrite <- Ht.
  destruct (Dyn.truthy ingress) eqn:Et; simpl in H; injection H as <-; simpl;
    [now rewrite Et | reflexivity].
Qed.

(** The URL that lines 43-52 compute. *)
Lemma compute_url_spec (values name : yaml) (record : list (yaml * yaml)) (url : string) :
  (exists entries, values = YMap entries) ->
  compute_url values name (YMap record) = Ok url ->
  (Dyn.dict_get record "path" = None /\ url = base_url values name record)
  \/ (exists path, Dyn.dict_get record "path" = Some (YStr path)
                   /\ url = base_url values name record +:+ path).
Proof.
  intros [entries ->]. unfold compute_url, base_url. simpl.
  rewrite !dict_has_get.
  destruct (Dyn.dict_get record "loadbalancer") as [address|]; simpl;
    (destruct (Dyn.dict_get record "path") as [[| | |path| |]|]; simpl;
     try discriminate; intros [= <-]; [right; eauto | now left]).
Qed.

Lemma services_loop_spec (values : yaml) (items : list (yaml * yaml)) :
  forall services result,
    services_loop values items services = Ok result ->
    exists added,
      result = services ++ added
      /\ map entry_of added = List.filter (fun item => qualifies (snd item)) items
      /\ Forall (fun s => compute_url values (service_name s) (service_config s)
                          = Ok (service_url s)) added.
Proof.
  induction items as [|[name config] items IH]; intros services result; simpl.
  - intros [= <-]. exists []. now rewrite app_nil_r.
  - destruct (ingress_or_loadbalancer config) as [selected|] eqn:E; [| discriminate].
    destruct (ingress_or_loadbalancer_spec _ _ E) as [_ ->]. simpl.
    destruct (qualifies config).
    + destruct (compute_url values name config) as [url|] eqn:Eu; [| discriminate].
      simpl. intros H. destruct (IH _ _ H) as (added & -> & Hm & Hu).
      exists (Service name config url :: added). rewrite <- app_assoc. simpl.
      split; [reflexivity |]. split; [now rewrite Hm |]. now constructor.
    + intros H. destruct (IH _ _ H) as (added & -> & Hm & Hu). now exists added.
Qed.

Lemma services_with_ingress_spec (values : yaml) (services : list service) :
  services_with_ingress values = Ok services ->
  (exists entries, values = YMap entries)
  /\ map entry_of services
     = List.filter (fun item => qualifies (snd item)) (service_map values)
  /\ Forall (fun s => compute_url values (service_name s) (service_config s)
                      = Ok (service_url s)) services.
Proof.
  unfold services_with_ingress, service_map.
  destruct values as [| | | | |entries]; try discriminate.
  split; [eauto |]. revert H. simpl.
  destruct (default (YMap []) (Dyn.dict_get entries "epicsConfiguration"))
    as [| | | | |epics]; try discriminate.
  simpl.
  destruct (default (YMap []) (Dyn.dict_get epics "services"))
    as [| | | | |items]; try discriminate.
  simpl. intros H. destruct (services_loop_spec _ _ _ _ H) as (added & -> & Hm & Hu).
  now split.
Qed.

Lemma has_ingress_returns (record : list (yaml * yaml)) :
  (Dyn.truthy (default YNull (Dyn.dict_get record "enable_ingress")) = true
   \/ Dyn.dict_get record "ingress" = None
   \/ exists ingress, Dyn.dict_get record "ingress" = Some (YMap ingress)) ->
  exists ingress, has_ingress (YMap record) = Ok ingress.
Proof.
  intros Hi. unfold has_ingress, Dyn.or_else. simpl.
  destruct (Dyn.truthy (default YNull (Dyn.dict_get record "enable_ingress"))); [eauto |].
  destruct Hi as [Hi | [-> | [ingress ->]]]; [discriminate | |]; simpl; eauto.
Qed.

Lemma ingress_or_loadbalancer_returns (service_config : yaml) :
  readable_record service_config ->
  ingress_or_loadbalancer service_config = Ok (qualifies service_config).
Proof.
  intros (record & -> & Hi & _).
  destruct (has_ingress_returns record Hi) as [ingress H].
  destruct (ingress_or_loadbalancer (YMap record)) as [selected|e] eqn:E.
  - now destruct (ingress_or_loadbalancer_spec _ _ E) as [_ ->].
  - unfold ingress_or_loadbalancer in E. rewrite H in E. simpl in E.
    unfold Dyn.or_else in E. now destruct (Dyn.truthy ingress).
Qed.

Lemma compute_url_returns (entries : list (yaml * yaml)) (name service_config : yaml) :
  readable_record service_config ->
  exists url, compute_url (YMap entries) name service_config = Ok url.
Proof.
  intros (record & -> & _ & Hp). unfold compute_url. simpl. rewrite !dict_has_get.
  destruct (Dyn.dict_get record "loadbalancer"); simpl;
    (destruct Hp as [-> | [path ->]]; simpl; eauto).
Qed.

Lemma services_loop_returns (entries : list (yaml * yaml)) (items : list (yaml * yaml)) :
  Forall (fun item => readable_record (snd item)) items ->
  forall services, exists result, services_loop (YMap entries) items services = Ok result.
Proof.
  induction 1 as [|[name config] items Hr _ IH]; intros services; simpl in *; [eauto |].
  rewrite (ingress_or_loadbalancer_returns _ Hr). simpl.
  destruct (qualifies config); [| apply IH].
  destruct (compute_url_returns entries name config Hr) as [url ->]. simpl. apply IH.
Qed.

(** The loader returns for a configuration that is a mapping, whose
    [epicsConfiguration] and [services] are mappings or absent, and whose
    service records are readable. *)
Lemma services_with_ingress_returns (entries : list (yaml * yaml)) :
  (Dyn.dict_get entries "epicsConfiguration" = None
   \/ exists epics, Dyn.dict_get entries "epicsConfiguration" = Some (YMap epics)
        /\ (Dyn.dict_get epics "services" = None
            \/ exists items, Dyn.dict_get epics "services" = Some (YMap items))) ->
  Forall (fun item => readable_record (snd item)) (service_map (YMap entries)) ->
  exists services, services_with_ingress (YMap entries) = Ok services.
Proof.
  unfold services_with_ingress, service_map. simpl.
  intros [He | (epics & He & Hs)]; rewrite He; simpl.
  - eauto.
  - destruct Hs as [Hs | [items Hs]]; rewrite Hs; simpl; [eauto |].
    intros H. now apply services_loop_returns.
Qed.

(** C1: the URL of every service record that the loader returns is
    [http://] followed by the load-balancer address when the record has
    one, and otherwise [http://<beamline>-<service-name>.<namespace>] with
    the two top-level fields of the configuration (empty when absent); a
    [path] field, when present, is a string and is appended as it is. *)
Theorem load_services_with_ingress_url (values : yaml) (services : list service) (s : service) :
  services_with_ingress values = Ok services ->
  In s services ->
  exists record,
    service_config s = YMap record
    /\ ((Dyn.dict_get record "path" = None
         /\ service_url s = base_url values (service_name s) record)
        \/ (exists path, Dyn.dict_get record "path" = Some (YStr path)
                         /\ service_url s = base_url values (service_name s) record +:+ path)).
Proof.
  intros H Hs. destruct (services_with_ingress_spec _ _ H) as (Hv & Hm & Hu).
  rewrite Forall_forall in Hu. specialize (Hu s).
  assert (Hin : In (entry_of s) (List.filter (fun item => qualifies (snd item)) (service_map values))).
  { rewrite <- Hm. now apply in_map. }
  apply filter_In in Hin as [_ Hq]. simpl in Hq.
  destruct (service_config s) as [| | | | |record] eqn:Ec; try discriminate.
  exists record. split; [reflexivity |].
  apply compute_url_spec; [exact Hv |]. apply Hu. now apply list_elem_of_In.
Qed.

(** ** The monad and the primitives *)

Lemma bind_Ok {A B} (m : M A) (k : A -> M B) (w w' : world) (b : B) :
  bind m k w = (Ok b, w') ->
  exists a w1, m w = (Ok a, w1) /\ k a w1 = (Ok b, w').
Proof.
  unfold bind. destruct (m w) as [[a|e] w1]; [eauto | discriminate].
Qed.

Lemma lift_Ok {A} (r : result A) (w w' : world) (a : A) :
  lift r w = (Ok a, w') -> r = Ok a /\ w' = w.
Proof. unfold lift. now intros [= -> ->]. Qed.

Lemma now_isoformat_Ok (w w' : world) (date : string) :
  now_isoformat w = (Ok date, w') -> written w' = written w.
Proof. unfold now_isoformat. now intros [= _ <-]. Qed.

Lemma os_makedirs_Ok (path : string) (w w' : world) (u : unit) :
  os_makedirs path w = (Ok u, w') -> written w' = written w.
Proof.
  unfold os_makedirs. destruct (String.eqb path ""); [discriminate |].
  match goal with |- context [match ?r with Ok _ => _ | Raise _ => _ end] => destruct r end;
    [now intros [= _ <-] | discriminate].
Qed.

Lemma write_text_Ok (path data : string) (w w' : world) (u : unit) :
  write_text path data w = (Ok u, w') -> written w' = written w ++ [(path, data)].
Proof.
  unfold write_text. destruct (Fs.resolve w path) as [p|]; [| discriminate].
  destruct p as [|c p]; [discriminate |].
  destruct (Fs.lookup (root w) (c :: p)) as [[data'|es]|]; try discriminate;
    now intros [= _ <-].
Qed.

Lemma print_Ok (line : string) (w w' : world) (u : unit) :
  print line w = (Ok u, w') -> written w' = written w.
Proof. unfold print. now intros [= _ <-]. Qed.

(** ** The page of a service *)

Lemma process_service_writes (dir : string) (s : service) (w w' : world) :
  process_service (Some dir) s w = (Ok tt, w') ->
  exists record date desc,
    service_config s = YMap record
    /\ written w' = written w
         ++ [(service_md_path dir s,
              service_md_content (Dyn.str (service_name s)) date
                (connection_block record (service_url s)) desc)].
Proof.
  unfold process_service. intros H.
  apply bind_Ok in H as (desc & w1 & H1 & H). apply lift_Ok in H1 as [H1 ->].
  apply bind_Ok in H as (ingress & w1 & H2 & H). apply lift_Ok in H2 as [H2 ->].
  apply bind_Ok in H as (has_lb & w1 & H3 & H). apply lift_Ok in H3 as [H3 ->].
  apply bind_Ok in H as (d & w1 & H4 & H). apply lift_Ok in H4 as [[= <-] ->].
  apply bind_Ok in H as (connection & w1 & H5 & H). apply lift_Ok in H5 as [H5 ->].
  apply bind_Ok in H as (date & w1 & H6 & H). apply now_isoformat_Ok in H6.
  apply bind_Ok in H as (u1 & w2 & H7 & H). apply os_makedirs_Ok in H7.
  apply bind_Ok in H as (u2 & w3 & H8 & H). apply write_text_Ok in H8.
  apply print_Ok in H.
  destruct (has_ingress_spec _ _ H2) as (record & Ec & Ht).
  exists record, date, (Dyn.str desc). split; [exact Ec |].
  rewrite H, H8, H7, H6. do 3 f_equal.
  rewrite Ec in H3. simpl in H3. injection H3 as <-.
  unfold connection_info in H5. rewrite Ht, Ec in H5.
  unfold connection_block. rewrite dict_has_get in H5. simpl in H5.
  destruct (Dyn.dict_get record "loadbalancer") as [address|];
    destruct (ingress_enabled record); simpl in H5; now injection H5 as <-.
Qed.

Lemma for_each_process_service (dir : string) (services : list service) :
  forall w w', for_each services (process_service (Some dir)) w = (Ok tt, w') ->
    map fst (written w') = map fst (written w) ++ map (service_md_path dir) services.
Proof.
  induction services as [|s services IH]; intros w w'; simpl.
  - unfold ret. intros [= <-]. now rewrite app_nil_r.
  - intros H. apply bind_Ok in H as ([] & w1 & H1 & H).
    apply process_service_writes in H1 as (record & date & desc & _ & H1).
    rewrite (IH _ _ H), H1, map_app. simpl. now rewrite <- app_assoc.
Qed.

(** C2: the service records that the loader returns are, in order, the
    entries of the service map that qualify, where an entry qualifies when
    its [enable_ingress] flag is truthy, or its nested [ingress] object has a
    truthy [enabled] flag, or it has a [loadbalancer] key: an entry has a
    record if and only if it qualifies.  The loop over the records writes
    one file per record and nothing else, so an entry that does not qualify
    has no output file. *)
Theorem load_services_with_ingress_qualifying (values : yaml) (services : list service) :
  services_with_ingress values = Ok services ->
  map entry_of services
  = List.filter (fun item => qualifies (snd item)) (service_map values)
  /\ (forall name service_config,
        In (name, service_config) (service_map values) ->
        ((exists url, In (Service name service_config url) services)
         <-> qualifies service_config = true))
  /\ (forall dir w w',
        for_each services (process_service (Some dir)) w = (Ok tt, w') ->
        map fst (written w') = map fst (written w) ++ map (service_md_path dir) services).
Proof.
  intros H. destruct (services_with_ingress_spec _ _ H) as (_ & Hm & _).
  split; [exact Hm |]. split; [| intros dir; apply for_each_process_service].
  intros name config Hin. split.
  - intros [url Hs].
    assert (Hi : In (entry_of (Service name config url))
                    (List.filter (fun item => qualifies (snd item)) (service_map values))).
    { rewrite <- Hm. now apply in_map. }
    now apply filter_In in Hi as [_ Hq].
  - intros Hq.
    assert (Hi : In (name, config) (map entry_of services)).
    { rewrite Hm. apply filter_In. now split. }
    apply in_map_iff in Hi as ([n c url] & [= -> ->] & Hs). eauto.
Qed.

(** C4: the page written for a service has, between the front matter and
    the description, the plain line [**Connection IP:** <address>] when the
    record has a load-balancer address and ingress is not enabled, and in
    every other case the heading [## Service URL] followed by the markdown
    link to the computed URL. *)
Theorem service_page_connection (dir : string) (s : service) (w w' : world) :
  process_service (Some dir) s w = (Ok tt, w') ->
  exists record date desc connection,
    service_config s = YMap record
    /\ written w' = written w
         ++ [(service_md_path dir s,
              service_front_matter (Dyn.str (service_name s)) date +:+ nl
              +:+ connection +:+ nl +:+ nl
              +:+ "## Description" +:+ nl +:+ nl +:+ desc +:+ nl)]
    /\ (forall address,
          Dyn.dict_get record "loadbalancer" = Some address ->
          ingress_enabled record = false ->
          connection = "**Connection IP:** " +:+ Dyn.str address)
    /\ (Dyn.dict_get record "loadbalancer" = None \/ ingress_enabled record = true ->
        connection = "## Service URL" +:+ nl +:+ nl
                     +:+ "[" +:+ service_url s +:+ "](" +:+ service_url s +:+ ")").
Proof.
  intros H. apply process_service_writes in H as (record & date & desc & Ec & Hw).
  exists record, date, desc, (connection_block record (service_url s)).
  split; [exact Ec |]. split; [exact Hw |]. unfold connection_block. split.
  - intros address -> ->. reflexivity.
  - intros [-> | ->]; [reflexivity |]. now destruct (Dyn.dict_get record "loadbalancer").
Qed.

(** ** The count of process variables *)

Lemma has_nonspace_lstrip (s : string) : has_nonspace (lstrip s) = has_nonspace s.
Proof.
  induction s as [|c s IH]; simpl; [reflexivity |].
  destruct (isspace c) eqn:E; simpl; [exact IH | now rewrite E].
Qed.

Lemma nonempty_rstrip (s : string) : nonempty (rstrip s) = has_nonspace s.
Proof.
  induction s as [|c s IH]; simpl; [reflexivity |].
  destruct (rstrip s) as [|d r]; simpl in *; rewrite <- IH.
  - destruct (isspace c); reflexivity.
  - now rewrite orb_true_r.
Qed.

Lemma nonempty_strip (s : string) : nonempty (strip s) = has_nonspace s.
Proof. unfold strip. now rewrite nonempty_rstrip, has_nonspace_lstrip. Qed.

Lemma split_not_nil (sep : ascii) (s : string) :
  exists h t, split sep None s = h :: t.
Proof.
  induction s as [|c s (h & t & IH)]; simpl; [eauto |].
  destruct (Ascii.eqb c sep); simpl; [eauto |]. rewrite IH. eauto.
Qed.

Lemma nonblank_lines_stats (s : string) :
  nonblank_lines s = stats_total (line_stats (split "010" None s)).
Proof.
  unfold nonblank_lines, stats_total, line_stats.
  destruct (split_not_nil "010" s) as (h & t & ->). simpl.
  now destruct (has_nonspace h).
Qed.

Lemma line_stats_cons (c : ascii) (s : string) :
  line_stats (split "010" None (String c s))
  = stats_step c (line_stats (split "010" None s)).
Proof.
  unfold stats_step. simpl.
  destruct (Ascii.eqb c "010") eqn:E; simpl.
  - unfold line_stats, stats_total. simpl.
    destruct (split_not_nil "010" s) as (h & t & ->). simpl.
    now destruct (has_nonspace h).
  - destruct (split_not_nil "010" s) as (h & t & ->). reflexivity.
Qed.

Lemma stats_step_space (c : ascii) (st : bool * nat) :
  isspace c = true -> stats_total (stats_step c st) = stats_total st.
Proof.
  intros H. unfold stats_step, stats_total. destruct st as [b n].
  destruct (Ascii.eqb c "010"); simpl; [lia | now rewrite H].
Qed.

Lemma nonblank_lines_lstrip (s : string) : nonblank_lines (lstrip s) = nonblank_lines s.
Proof.
  induction s as [|c s IH]; simpl; [reflexivity |].
  destruct (isspace c) eqn:E; [| reflexivity].
  rewrite IH, !nonblank_lines_stats, line_stats_cons. now rewrite stats_step_space.
Qed.

Lemma line_stats_rstrip (s : string) :
  line_stats (split "010" None (rstrip s)) = line_stats (split "010" None s).
Proof.
  induction s as [|c s IH]; [reflexivity |].
  rewrite line_stats_cons, <- IH. cbn [rstrip].
  destruct (rstrip s) as [|d r] eqn:E.
  - destruct (isspace c) eqn:Hc.
    + unfold stats_step. destruct (Ascii.eqb c "010"); [reflexivity |].
      unfold line_stats. simpl. now rewrite Hc.
    + now rewrite line_stats_cons.
  - now rewrite line_stats_cons.
Qed.

Lemma count_pvs_nonblank_lines (text : string) : count_pvs text = nonblank_lines text.
Proof.
  unfold count_pvs, strip.
  rewrite (filter_ext _ has_nonspace) by (intros l; apply nonempty_strip).
  change (nonblank_lines (rstrip (lstrip text)) = nonblank_lines text).
  rewrite !nonblank_lines_stats, line_stats_rstrip, <- !nonblank_lines_stats.
  apply nonblank_lines_lstrip.
Qed.

(** ** Reading leaves the world as it is *)

Lemma readonly_ret {A} (a : A) : readonly (ret a).
Proof. intros w r w'. unfold ret. now intros [= _ <-]. Qed.

Lemma readonly_lift {A} (r : result A) : readonly (lift r).
Proof. intros w r' w'. unfold lift. now intros [= _ <-]. Qed.

Lemma readonly_bind {A B} (m : M A) (k : A -> M B) :
  readonly m -> (forall a, readonly (k a)) -> readonly (bind m k).
Proof.
  intros Hm Hk w r w'. unfold bind.
  destruct (m w) as [[a|e] w1] eqn:E; rewrite (Hm _ _ _ E).
  - apply Hk.
  - now intros [= _ <-].
Qed.

Lemma readonly_exists (path : string) : readonly (os_path_exists path).
Proof. intros w r w'. unfold os_path_exists. now intros [= _ <-]. Qed.

Lemma readonly_listdir (path : string) : readonly (os_listdir path).
Proof.
  intros w r w'. unfold os_listdir.
  destruct (Fs.stat w path) as [[data|es]|]; now intros [= _ <-].
Qed.

Lemma readonly_read_text (path : string) : readonly (read_text path).
Proof.
  intros w r w'. unfold read_text.
  destruct (Fs.stat w path) as [[data|es]|]; now intros [= _ <-].
Qed.

Lemma readonly_if {A} (b : bool) (m1 m2 : M A) :
  readonly m1 -> readonly m2 -> readonly (if b then m1 else m2).
Proof. now destruct b. Qed.

Create HintDb readonly.
#[local] Hint Resolve readonly_ret readonly_lift readonly_exists readonly_listdir
  readonly_read_text readonly_if : readonly.
#[local] Hint Extern 2 (readonly (bind _ _)) => apply readonly_bind; [| intros ?] : readonly.

Lemma readonly_read_if_exists (path : string) : readonly (read_if_exists path).
Proof. unfold read_if_exists. auto 6 with readonly. Qed.

Lemma readonly_extract_ioc_metadata (path : string) : readonly (extract_ioc_metadata path).
Proof. unfold extract_ioc_metadata. auto 8 with readonly. Qed.

#[local] Hint Resolve readonly_read_if_exists readonly_extract_ioc_metadata : readonly.

Lemma readonly_read_ioc (iocinfo_dir : string) (ioc_configs : gmap string yaml)
  (ioc_name : string) : readonly (read_ioc iocinfo_dir ioc_configs ioc_name).
Proof.
  unfold read_ioc.
  repeat (apply readonly_bind; [auto 6 with readonly | intros ?]).
  - destruct (List.filter _ _); auto with readonly.
  - repeat (apply readonly_bind; [auto 8 with readonly | intros ?]).
    match goal with p : (string * nat)%type |- _ => destruct p end.
    auto with readonly.
Qed.

Lemma bind_readonly_Ok {A B} (m : M A) (k : A -> M B) (w w' : world) (b : B) :
  readonly m ->
  bind m k w = (Ok b, w') ->
  exists a, m w = (Ok a, w) /\ k a w = (Ok b, w').
Proof.
  intros Hm H. apply bind_Ok in H as (a & w1 & H1 & H).
  pose proof (Hm _ _ _ H1) as ->. eauto.
Qed.

(** ** The page of an IOC *)

Lemma read_text_Ok (path text : string) (w w' : world) :
  read_text path w = (Ok text, w') -> Fs.stat w path = Some (File text).
Proof.
  unfold read_text. destruct (Fs.stat w path) as [[data|es]|]; try discriminate.
  now intros [= ->].
Qed.

Lemma os_path_exists_false (path : string) (w w' : world) :
  os_path_exists path w = (Ok false, w') -> Fs.stat w path = None.
Proof.
  unfold os_path_exists. intros [= H _].
  apply bool_decide_eq_false in H. destruct (Fs.stat w path); [| reflexivity].
  destruct H. eauto.
Qed.

(** What [read_ioc] returns, against the files it read. *)
Lemma read_ioc_spec (iocinfo_dir : string) (ioc_configs : gmap string yaml)
  (ioc_name : string) (w w' : world) (i : ioc_inputs) :
  read_ioc iocinfo_dir ioc_configs ioc_name w = (Ok i, w') ->
  w' = w
  /\ (exists metadata,
        extract_ioc_metadata (start_log_path iocinfo_dir ioc_name) w = (Ok metadata, w)
        /\ devgroup i = default "other" (metadata !! "IOC Device Group")
        /\ ioc_asset i = default "" (metadata !! "IOC Asset"))
  /\ ((Fs.stat w (pvlist_path iocinfo_dir ioc_name) = Some (File (pvlist_content i))
       /\ pv_count i = count_pvs (pvlist_content i))
      \/ (Fs.stat w (pvlist_path iocinfo_dir ioc_name) = None
          /\ pvlist_content i = "" /\ pv_count i = 0%nat)).
Proof.
  intros H. split; [exact (readonly_read_ioc _ _ _ _ _ _ H) |].
  unfold read_ioc in H.
  apply bind_readonly_Ok in H as (metadata & Hmeta & H); [| auto with readonly].
  apply bind_readonly_Ok in H as (log_text & _ & H); [| auto with readonly].
  apply bind_readonly_Ok in H as (listing & _ & H); [| auto with readonly].
  apply bind_readonly_Ok in H as (yaml_text & _ & H);
    [| destruct (List.filter _ listing); auto with readonly].
  apply bind_readonly_Ok in H as (stcmd_text & _ & H); [| auto with readonly].
  apply bind_readonly_Ok in H as (has_pvlist & Hex & H); [| auto with readonly].
  apply bind_readonly_Ok in H as ([pvlist_text n] & Hpv & H);
    [| destruct has_pvlist; auto 6 with readonly].
  apply bind_readonly_Ok in H as (desc & _ & H); [| auto with readonly].
  unfold ret in H. injection H as <- _.
  split; [exists metadata; now repeat split |].
  cbn [pvlist_content pv_count]. fold (pvlist_path iocinfo_dir ioc_name) in *.
  destruct has_pvlist.
  - left. apply bind_Ok in Hpv as (text & w1 & Hr & Hpv).
    unfold ret in Hpv. injection Hpv as -> -> _.
    split; [exact (read_text_Ok _ _ _ _ Hr) | reflexivity].
  - right. unfold ret in Hpv. injection Hpv as <- <-.
    split; [exact (os_path_exists_false _ _ _ Hex) | now split].
Qed.

Lemma process_ioc_writes (iocinfo_dir control_dir : string) (ioc_configs : gmap string yaml)
  (ioc_name : string) (w w' : world) :
  process_ioc iocinfo_dir control_dir ioc_configs ioc_name w = (Ok tt, w') ->
  exists i date,
    read_ioc iocinfo_dir ioc_configs ioc_name w = (Ok i, w)
    /\ written w' = written w
         ++ [(ioc_md_path control_dir ioc_name, ioc_md_content ioc_name date i)].
Proof.
  unfold process_ioc. intros H.
  apply bind_readonly_Ok in H as (i & Hi & H); [| apply readonly_read_ioc].
  apply bind_Ok in H as (date & w1 & H1 & H). apply now_isoformat_Ok in H1.
  apply bind_Ok in H as (u & w2 & H2 & H). apply write_text_Ok in H2.
  apply print_Ok in H.
  exists i, date. split; [exact Hi |]. now rewrite H, H2, H1.
Qed.

Lemma nonempty_true (s : string) : nonempty s = true <-> s <> "".
Proof.
  unfold nonempty. destruct (String.eqb_spec s ""); simpl; split; congruence.
Qed.

Lemma section_nonempty (b : bool) (block : string) :
  block <> "" -> ((if b then block else "") <> "" <-> b = true).
Proof. destruct b; split; congruence. Qed.

(** The navigation list against the sections of the page. *)
Lemma nav_links_sections (asset yaml_text stcmd_text pvlist_text : string) (n : nat) :
  let nav := nav_links asset yaml_text stcmd_text pvlist_text n in
  In startlog_link nav
  /\ (In (asset_link asset) nav <-> asset <> "")
  /\ (In yaml_link nav <-> yaml_section yaml_text <> "")
  /\ (In stcmd_link nav <-> stcmd_section stcmd_text <> "")
  /\ (In (pvlist_link n) nav <-> pvlist_section pvlist_text n <> "")
  /\ (forall link, In link nav ->
        link = asset_link asset \/ link = startlog_link \/ link = yaml_link
        \/ link = stcmd_link \/ link = pvlist_link n).
Proof.
  unfold yaml_section, stcmd_section, pvlist_section.
  rewrite !section_nonempty by discriminate.
  rewrite <- nonempty_true.
  unfold nav_links.
  destruct (nonempty asset), (nonempty yaml_text), (nonempty stcmd_text),
    (nonempty pvlist_text); simpl.
  all: repeat split; intros; try discriminate; auto 7.
  all: repeat match goal with
         | H : _ \/ _ |- _ => destruct H
         | H : False |- _ => destruct H
         end; subst; auto 7.
  all: unfold asset_link, startlog_link, yaml_link, stcmd_link, pvlist_link in *;
    simpl in *; try discriminate.
Qed.

(** C6: the count on the page of an IOC, in the navigation link and in the
    heading of the process-variable section, is the number of lines of
    [pvlist.txt] that have a character that is not white space; the text
    of three lines [a], blank, [b] has the count 2. *)
Theorem pv_count_nonblank_lines (iocinfo_dir control_dir : string)
  (ioc_configs : gmap string yaml) (ioc_name : string) (w w' : world) :
  process_ioc iocinfo_dir control_dir ioc_configs ioc_name w = (Ok tt, w') ->
  (exists i date,
     written w' = written w
       ++ [(ioc_md_path control_dir ioc_name, ioc_md_content ioc_name date i)]
     /\ (Fs.stat w (pvlist_path iocinfo_dir ioc_name) = Some (File (pvlist_content i))
         \/ Fs.stat w (pvlist_path iocinfo_dir ioc_name) = None /\ pvlist_content i = "")
     /\ pv_count i = nonblank_lines (pvlist_content i)
     /\ (pvlist_content i <> "" ->
         In (pvlist_link (nonblank_lines (pvlist_content i)))
            (nav_links (ioc_asset i) (yaml_content i) (stcmd_content i)
                       (pvlist_content i) (pv_count i))
         /\ pvlist_section (pvlist_content i) (pv_count i)
            = nl +:+ "## Process Variables ("
              +:+ str_int (Z.of_nat (nonblank_lines (pvlist_content i)))
              +:+ ") {#pvlist}" +:+ nl +:+ nl
              +:+ "```text" +:+ nl +:+ pvlist_content i +:+ nl +:+ "```" +:+ nl))
  /\ (forall text, count_pvs text = nonblank_lines text)
  /\ count_pvs ("a" +:+ nl +:+ nl +:+ "b" +:+ nl) = 2%nat.
Proof.
  intros H. split; [| split; [apply count_pvs_nonblank_lines | reflexivity]].
  apply process_ioc_writes in H as (i & date & Hi & Hw).
  exists i, date. split; [exact Hw |].
  assert (Hc : pv_count i = nonblank_lines (pvlist_content i)
               /\ (Fs.stat w (pvlist_path iocinfo_dir ioc_name) = Some (File (pvlist_content i))
                   \/ Fs.stat w (pvlist_path iocinfo_dir ioc_name) = None
                      /\ pvlist_content i = "")).
  { destruct (read_ioc_spec _ _ _ _ _ _ Hi) as (_ & _ & [[Hf Hc] | (Hf & He & Hc)]).
    - split; [now rewrite Hc, count_pvs_nonblank_lines | now left].
    - split; [now rewrite Hc, He | now right]. }
  destruct Hc as [Hc Hf]. split; [exact Hf |]. split; [exact Hc |].
  intros Hne. apply nonempty_true in Hne. rewrite <- Hc.
  unfold pvlist_section, nav_links. rewrite Hne. split; [| reflexivity].
  rewrite !in_app_iff. do 4 right. now left.
Qed.

(** C9: the page written for an IOC has, after the front matter, the
    navigation list, then the section [## Start Log] around the log text
    (the section is there when the text is empty), then the description,
    YAML, [st.cmd] and process-variable sections, each empty or a block.
    The navigation list has the start-log link always, the asset link
    exactly when the asset field of the metadata is not empty, the YAML,
    [st.cmd] and process-variable links each exactly when its section is
    not empty, and no other link. *)
Theorem ioc_page_navigation (iocinfo_dir control_dir : string)
  (ioc_configs : gmap string yaml) (ioc_name : string) (w w' : world) :
  process_ioc iocinfo_dir control_dir ioc_configs ioc_name w = (Ok tt, w') ->
  exists i date metadata nav,
    extract_ioc_metadata (start_log_path iocinfo_dir ioc_name) w = (Ok metadata, w)
    /\ ioc_asset i = default "" (metadata !! "IOC Asset")
    /\ written w' = written w
         ++ [(ioc_md_path control_dir ioc_name,
              ioc_front_matter ioc_name (devgroup i) date +:+ nl
              +:+ "## Quick Navigation" +:+ nl +:+ nl
              +:+ join nl nav +:+ nl +:+ nl
              +:+ ("## Start Log {#startlog}" +:+ nl +:+ nl
                   +:+ "```" +:+ nl +:+ start_log_content i +:+ nl +:+ "```" +:+ nl)
              +:+ desc_section (ioc_desc i)
              +:+ yaml_section (yaml_content i)
              +:+ stcmd_section (stcmd_content i)
              +:+ pvlist_section (pvlist_content i) (pv_count i)
              +:+ nl)]
    /\ In startlog_link nav
    /\ (In (asset_link (ioc_asset i)) nav <-> ioc_asset i <> "")
    /\ (In yaml_link nav <-> yaml_section (yaml_content i) <> "")
    /\ (In stcmd_link nav <-> stcmd_section (stcmd_content i) <> "")
    /\ (In (pvlist_link (pv_count i)) nav
        <-> pvlist_section (pvlist_content i) (pv_count i) <> "")
    /\ (forall link, In link nav ->
          link = asset_link (ioc_asset i) \/ link = startlog_link \/ link = yaml_link
          \/ link = stcmd_link \/ link = pvlist_link (pv_count i)).
Proof.
  intros H. apply process_ioc_writes in H as (i & date & Hi & Hw).
  destruct (read_ioc_spec _ _ _ _ _ _ Hi) as (_ & (metadata & Hm & _ & Ha) & _).
  exists i, date, metadata,
    (nav_links (ioc_asset i) (yaml_content i) (stcmd_content i) (pvlist_content i) (pv_count i)).
  split; [exact Hm |]. split; [exact Ha |]. split; [exact Hw |].
  apply nav_links_sections.
Qed.

(** ** Which directories [main] processes *)

Lemma readonly_isdir (path : string) : readonly (os_path_isdir path).
Proof. intros w r w'. unfold os_path_isdir. now intros [= _ <-]. Qed.

Lemma readonly_filter_io {A} (test : A -> M bool) (l : list A) :
  (forall x, readonly (test x)) -> readonly (filter_io test l).
Proof.
  intros Hro. induction l as [|x l IH]; simpl; [apply readonly_ret |].
  apply readonly_bind; [apply Hro | intros keep].
  apply readonly_bind; [exact IH | intros rest]. apply readonly_ret.
Qed.

(** With a list of names that is not empty, only the directories named in
    it are selected. *)
Lemma select_ioc_dirs_allowed (iocinfo_dir : string) (name : yaml) (names : list yaml)
  (w w' : world) (ioc_dirs : list string) :
  select_ioc_dirs iocinfo_dir (Some (name :: names)) w = (Ok ioc_dirs, w') ->
  forall ioc, In ioc ioc_dirs -> allowed (name :: names) ioc = true.
Proof.
  unfold select_ioc_dirs. intros H.
  apply bind_Ok in H as (listing & w1 & _ & H).
  apply bind_Ok in H as (dirs & w2 & _ & H).
  apply bind_Ok in H as (u & w3 & _ & H). unfold ret in H. injection H as <- _.
  intros ioc Hin. now apply filter_In in Hin as [_ Hin].
Qed.

(** An empty list of names selects what no list selects. *)
Lemma select_ioc_dirs_empty_list (iocinfo_dir : string) (w : world) :
  select_ioc_dirs iocinfo_dir (Some []) w = select_ioc_dirs iocinfo_dir None w.
Proof. reflexivity. Qed.

(** Without a configuration every directory of the listing is selected. *)
Lemma select_ioc_dirs_all (iocinfo_dir : string) (w w' : world) (ioc_dirs : list string) :
  select_ioc_dirs iocinfo_dir None w = (Ok ioc_dirs, w') ->
  filter_io (fun d => os_path_isdir (os_path_join iocinfo_dir d))
            (match Fs.stat w iocinfo_dir with Some (Dir es) => map fst es | _ => [] end) w
  = (Ok ioc_dirs, w').
Proof.
  unfold select_ioc_dirs. intros H.
  apply bind_Ok in H as (listing & w1 & H1 & H).
  apply bind_Ok in H as (dirs & w2 & H2 & H). unfold ret in H. injection H as <- <-.
  unfold os_listdir in H1. destruct (Fs.stat w iocinfo_dir) as [[data|es]|]; try discriminate.
  now injection H1 as <- <-.
Qed.

Lemma for_each_process_ioc (iocinfo_dir control_dir : string)
  (ioc_configs : gmap string yaml) (ioc_dirs : list string) :
  forall w w',
    for_each ioc_dirs (process_ioc iocinfo_dir control_dir ioc_configs) w = (Ok tt, w') ->
    map fst (written w') = map fst (written w) ++ map (ioc_md_path control_dir) ioc_dirs.
Proof.
  induction ioc_dirs as [|d ioc_dirs IH]; intros w w'; simpl.
  - unfold ret. intros [= <-]. now rewrite app_nil_r.
  - intros H. apply bind_Ok in H as ([] & w1 & H1 & H).
    apply process_ioc_writes in H1 as (i & date & _ & H1).
    rewrite (IH _ _ H), H1, map_app. simpl. now rewrite <- app_assoc.
Qed.

(** C3, the run that departs from it: the configuration is given and its
    list of IOCs is empty, so the directory [devA] is not among the names;
    the script prints that it filters to the empty list, and still writes
    the page of [devA]. *)
Theorem main_empty_ioc_list_filters_nothing :
  fst EmptyList.run = Ok tt
  /\ names_of [] = Ok []
  /\ allowed [] "devA" = false
  /\ hd "" (stdout (snd EmptyList.run)) = "Filtering to IOCs listed in values.yaml: []"
  /\ map fst (written (snd EmptyList.run)) = ["control/devA.md"].
Proof. vm_compute. repeat split. Qed.

(** ** The files [main] writes *)

Lemma keeps_written_readonly {A} (m : M A) : readonly m -> keeps_written m.
Proof. intros H w r w' E. now rewrite (H _ _ _ E). Qed.

Lemma keeps_written_bind {A B} (m : M A) (k : A -> M B) :
  keeps_written m -> (forall a, keeps_written (k a)) -> keeps_written (bind m k).
Proof.
  intros Hm Hk w r w'. unfold bind.
  destruct (m w) as [[a|e] w1] eqn:E.
  - intros H. now rewrite (Hk _ _ _ _ H), (Hm _ _ _ E).
  - intros [= _ <-]. exact (Hm _ _ _ E).
Qed.

Lemma keeps_written_print (line : string) : keeps_written (print line).
Proof. intros w r w'. unfold print. now intros [= _ <-]. Qed.

Section MainWrites.

Variable safe_load : string -> result yaml.

Lemma readonly_load_values (file : string) : readonly (load_values safe_load file).
Proof. unfold load_values. auto 6 with readonly. Qed.

Lemma keeps_written_load_config (values_file : option string) :
  keeps_written (load_config safe_load values_file).
Proof.
  unfold load_config, load_ioc_list, load_services_with_ingress.
  pose proof readonly_load_values as Hv.
  destruct values_file as [file|]; [| apply keeps_written_readonly; auto with readonly].
  destruct (nonempty file); [| apply keeps_written_readonly; auto with readonly].
  repeat (apply keeps_written_bind;
          [first [apply keeps_written_print
                 | apply keeps_written_readonly; auto 8 with readonly] | intros ?]).
  apply keeps_written_readonly; auto with readonly.
Qed.

Lemma keeps_written_select_ioc_dirs (iocinfo_dir : string) (allowed_iocs : option (list yaml)) :
  keeps_written (select_ioc_dirs iocinfo_dir allowed_iocs).
Proof.
  unfold select_ioc_dirs.
  apply keeps_written_bind; [apply keeps_written_readonly; auto with readonly | intros listing].
  apply keeps_written_bind.
  - apply keeps_written_readonly, readonly_filter_io. intros d. apply readonly_isdir.
  - intros dirs. destruct allowed_iocs as [[|n ns]|];
      try solve [apply keeps_written_readonly; auto with readonly].
    apply keeps_written_bind; [apply keeps_written_print | intros ?].
    apply keeps_written_readonly; auto with readonly.
Qed.

(** The pages of a run that ends well: one per selected directory, then one
    per service record. *)
Lemma main_writes (iocinfo_dir control_dir services_dir : string)
  (values_file : option string) (w w' : world) :
  main safe_load iocinfo_dir control_dir values_file (Some services_dir) w = (Ok tt, w') ->
  exists allowed_iocs ioc_configs services ioc_dirs w1 w2,
    load_config safe_load values_file w = (Ok (allowed_iocs, ioc_configs, services), w1)
    /\ select_ioc_dirs iocinfo_dir allowed_iocs w1 = (Ok ioc_dirs, w2)
    /\ map fst (written w')
       = map fst (written w) ++ map (ioc_md_path control_dir) ioc_dirs
         ++ map (service_md_path services_dir) services
    /\ (forall name names, allowed_iocs = Some (name :: names) ->
        forall ioc, In ioc ioc_dirs -> allowed (name :: names) ioc = true).
Proof.
  unfold main. intros H.
  apply bind_Ok in H as ([[allowed_iocs ioc_configs] services] & w1 & H1 & H).
  apply bind_Ok in H as (ioc_dirs & w2 & H2 & H).
  apply bind_Ok in H as ([] & w3 & H3 & H).
  apply bind_Ok in H as ([] & w4 & H4 & H).
  apply keeps_written_print in H.
  exists allowed_iocs, ioc_configs, services, ioc_dirs, w1, w2.
  split; [exact H1 |]. split; [exact H2 |]. split.
  - rewrite H, (for_each_process_service _ _ _ _ H4), (for_each_process_ioc _ _ _ _ _ _ H3).
    rewrite (keeps_written_select_ioc_dirs _ _ _ _ _ H2), (keeps_written_load_config _ _ _ _ H1).
    now rewrite <- app_assoc.
  - intros name names ->. exact (select_ioc_dirs_allowed _ _ _ _ _ _ H2).
Qed.

End MainWrites.

(** ** A sample run *)

Example sample_run :
  fst Sample.run = Ok tt
  /\ stdout (snd Sample.run)
     = ["Filtering to IOCs listed in values.yaml: ['devA']";
        "Found 2 services with ingress enabled";
        "Processing 1 IOCs: ['devA']";
        "Updated: control/devA.md (PVs: 2) | Asset: http://docs/devA...";
        "Updated: services/svc.md (Service: http://b1-svc.ns/ui)";
        "Updated: services/lb.md (Service: http://10.0.0.5)";
        "Done!"]
  /\ map fst (written (snd Sample.run))
     = ["control/devA.md"; "services/svc.md"; "services/lb.md"].
Proof. vm_compute. repeat split. Qed.

Lemma load_services_with_ingress_url_witness :
  exists record,
    service_config Sample.svc = YMap record
    /\ ((Dyn.dict_get record "path" = None
         /\ service_url Sample.svc = base_url Sample.values (service_name Sample.svc) record)
        \/ (exists path,
              Dyn.dict_get record "path" = Some (YStr path)
              /\ service_url Sample.svc
                 = base_url Sample.values (service_name Sample.svc) record +:+ path)).
Proof.
  apply (load_services_with_ingress_url Sample.values [Sample.svc; Sample.lb] Sample.svc).
  - reflexivity.
  - simpl. auto.
Defined.

Lemma load_services_with_ingress_qualifying_witness :
  map entry_of [Sample.svc; Sample.lb]
  = List.filter (fun item => qualifies (snd item)) (service_map Sample.values).
Proof.
  apply (load_services_with_ingress_qualifying Sample.values [Sample.svc; Sample.lb]).
  reflexivity.
Defined.

Lemma service_page_connection_witness :
  exists date desc,
    written Sample.after_lb
    = [("services/lb.md",
        service_front_matter "lb" date +:+ nl
        +:+ "**Connection IP:** 10.0.0.5" +:+ nl +:+ nl
        +:+ "## Description" +:+ nl +:+ nl +:+ desc +:+ nl)].
Proof.
  destruct (service_page_connection "services" Sample.lb Sample.start Sample.after_lb)
    as (record & date & desc & connection & Ec & Hw & Hip & _).
  - vm_compute. reflexivity.
  - exists date, desc. rewrite Hw.
    injection Ec as <-. now rewrite (Hip (YStr "10.0.0.5")).
Defined.

Lemma pv_count_nonblank_lines_witness :
  exists i date,
    written Sample.after_devA = [("control/devA.md", ioc_md_content "devA" date i)]
    /\ pv_count i = nonblank_lines (pvlist_content i).
Proof.
  destruct (pv_count_nonblank_lines "iocinfo" "control" Sample.ioc_configs "devA"
              Sample.start Sample.after_devA)
    as [(i & date & Hw & _ & Hc & _) _].
  - vm_compute. reflexivity.
  - exists i, date. split; [exact Hw | exact Hc].
Defined.

Lemma ioc_page_navigation_witness :
  exists i nav,
    In startlog_link nav
    /\ (In (asset_link (ioc_asset i)) nav <-> ioc_asset i <> "")
    /\ (In yaml_link nav <-> yaml_section (yaml_content i) <> "").
Proof.
  destruct (ioc_page_navigation "iocinfo" "control" Sample.ioc_configs "devA"
              Sample.start Sample.after_devA)
    as (i & date & metadata & nav & _ & _ & _ & Hs & Ha & Hy & _).
  - vm_compute. reflexivity.
  - exists i, nav. exact (conj Hs (conj Ha Hy)).
Defined.

(** * Further properties of the script *)

(** ** [make_urls_clickable], word by word *)

Lemma isspace_not (x c : ascii) : isspace x = false -> isspace c = true -> Ascii.eqb x c = false.
Proof.
  intros Hx Hc. destruct (Ascii.eqb_spec x c) as [-> |]; [congruence | reflexivity].
Qed.

Lemma removeprefix_space (p a b : string) (c : ascii) :
  no_space p -> isspace c = true ->
  removeprefix p (a +:+ String c b)
  = option_map (fun r => r +:+ String c b) (removeprefix p a).
Proof.
  intros Hp Hc. revert a. induction p as [|x p IH]; intros a; [reflexivity |].
  assert (Hx : isspace x = false) by (apply Hp; now left).
  assert (Hp' : no_space p) by (intros d Hd; apply Hp; now right).
  destruct a as [|y a]; simpl.
  - now rewrite (isspace_not _ _ Hx Hc).
  - destruct (Ascii.eqb x y); [apply (IH Hp') | reflexivity].
Qed.

Lemma nonspace_run_space (r b : string) (c : ascii) :
  isspace c = true -> nonspace_run (r +:+ String c b) = nonspace_run r.
Proof.
  intros Hc. induction r as [|x r IH]; simpl; [now rewrite Hc |].
  destruct (isspace x); [reflexivity | now rewrite IH].
Qed.

Lemma no_space_http : no_space "http://" /\ no_space "https://".
Proof.
  split; intros c Hc; simpl in Hc;
    repeat (destruct Hc as [<- | Hc]; [reflexivity |]); destruct Hc.
Qed.

(** White space after [a] does not change what is found in [a]. *)
Lemma match_url_space (a b : string) (c : ascii) :
  isspace c = true -> match_url (a +:+ String c b) = match_url a.
Proof.
  intros Hc. unfold match_url. destruct no_space_http as [H1 H2].
  rewrite !(removeprefix_space _ a b c) by assumption.
  destruct (removeprefix "https://" a) as [r|]; cbn [option_map].
  - now rewrite (nonspace_run_space r b c Hc).
  - destruct (removeprefix "http://" a) as [r|]; cbn [option_map]; [| reflexivity].
    now rewrite (nonspace_run_space r b c Hc).
Qed.

Lemma match_url_length (text url : string) :
  match_url text = Some url -> (String.length url <= String.length text)%nat.
Proof.
  intros H. apply match_url_Some in H as (rest & scheme & body & _ & _ & -> & _).
  rewrite length_append. lia.
Qed.

Lemma sub_urls_space (a b : string) (c : ascii) :
  isspace c = true ->
  forall k, (k <= String.length a)%nat ->
    sub_urls k (a +:+ String c b) = sub_urls k a +:+ String c (sub_urls 0 b).
Proof.
  intros Hc. induction a as [|x a IH]; intros k Hk.
  - assert (k = 0%nat) as -> by (simpl in Hk; lia).
    change (sub_urls 0 (String c b) = String c (sub_urls 0 b)).
    pose proof (match_url_space "" b c Hc) as E.
    change ("" +:+ String c b) with (String c b) in E.
    cbn [sub_urls]. now rewrite E.
  - change (String x a +:+ String c b) with (String x (a +:+ String c b)).
    destruct k as [|k]; cbn [sub_urls].
    + change (String x (a +:+ String c b)) with (String x a +:+ String c b).
      rewrite (match_url_space (String x a) b c Hc).
      destruct (match_url (String x a)) as [url|] eqn:E.
      * apply match_url_length in E. simpl in E.
        rewrite IH by lia. now rewrite !append_assoc.
      * rewrite IH by lia. reflexivity.
    + apply IH. simpl in Hk. lia.
Qed.

(** X1: the transform works on the stretches between white space one by
    one: for a white-space character [c] (a space, a newline, ...), the
    result for [a c b] is the result for [a], then [c], then the result for
    [b]. *)
Theorem make_urls_clickable_space (a b : string) (c : ascii) :
  isspace c = true ->
  make_urls_clickable (a +:+ String c b)
  = make_urls_clickable a +:+ String c (make_urls_clickable b).
Proof.
  intros Hc. unfold make_urls_clickable. apply (sub_urls_space a b c Hc). lia.
Qed.

Lemma make_urls_clickable_space_witness :
  make_urls_clickable ("at http://a" +:+ String "010" "and https://b/c")
  = make_urls_clickable "at http://a" +:+ String "010" (make_urls_clickable "and https://b/c").
Proof.
  apply (make_urls_clickable_space "at http://a" "and https://b/c" "010"). reflexivity.
Defined.

(** ** [make_urls_clickable], applied again *)

Lemma linkified_length (text out : string) :
  linkified text out ->
  out = text \/ (String.length text < String.length out)%nat.
Proof.
  induction 1 as [| url rest out H _ IH | c text out H _ IH].
  - now left.
  - right. repeat (rewrite length_append || cbn [String.length String.append]).
    destruct IH as [-> | IH]; lia.
  - destruct IH as [-> | IH]; [now left | right; simpl; lia].
Qed.

Lemma url_inside_cons (c : ascii) (s : string) : url_inside s -> url_inside (String c s).
Proof. intros (a & b & url & -> & H). now exists (String c a), b, url. Qed.

Lemma url_inside_app (p s : string) : url_inside s -> url_inside (p +:+ s).
Proof. induction p as [|c p IH]; intros H; [exact H | apply url_inside_cons; auto]. Qed.

(** The link written for a URL holds the URL again. *)
Lemma linkified_url_inside (text out : string) :
  linkified text out -> out <> text -> url_inside out.
Proof.
  induction 1 as [| url rest out H _ IH | c text out H _ IH]; intros Hne.
  - now destruct Hne.
  - apply (url_inside_app "["). exists "", (url +:+ "](" +:+ url +:+ ")" +:+ out).
    destruct H as (scheme & body & Hs & -> & _ & Hb & Hn & _).
    destruct body as [|x body]; [contradiction |].
    assert (Hx : isspace x = false) by (apply Hn; now left).
    exists (scheme +:+ nonspace_run (String x body +:+ "](" +:+ scheme +:+ String x body
                                     +:+ ")" +:+ out)).
    split; [reflexivity |]. rewrite append_assoc. unfold match_url.
    destruct Hs as [-> | ->].
    + change (removeprefix "https://" ("http://" +:+ ?r)) with (@None string).
      rewrite (removeprefix_app "http://"). cbn [String.append nonspace_run].
      now rewrite Hx.
    + rewrite (removeprefix_app "https://"). cbn [String.append nonspace_run].
      now rewrite Hx.
  - apply url_inside_cons, IH. intros ->. now destruct Hne.
Qed.

(** A text in which the pattern matches somewhere is changed. *)
Lemma linkified_changes (text out : string) :
  linkified text out -> url_inside text -> (String.length text < String.length out)%nat.
Proof.
  induction 1 as [| url rest out H Hl IH | c text out H Hl IH]; intros Hin.
  - destruct Hin as (a & b & url & E & Hm). destruct a, b; try discriminate.
  - repeat (rewrite length_append || cbn [String.length String.append]).
    destruct (linkified_length _ _ Hl) as [-> | Hlen]; lia.
  - destruct Hin as (a & b & url & E & Hm). destruct a as [|x a]; simpl in E.
    + subst b. apply match_url_Some in Hm as [rest Hm]. now destruct (H url rest).
    + injection E as -> ->. simpl.
      assert (url_inside (a +:+ b)) by now exists a, b, url.
      apply IH in H0. lia.
Qed.

(** X2: the transform is not idempotent on a text with a URL: when it
    changes a text it makes it longer, and applied to its own output it
    changes that again (the URL inside the link is found once more). *)
Theorem make_urls_clickable_twice (text : string) :
  make_urls_clickable text <> text ->
  (String.length text < String.length (make_urls_clickable text))%nat
  /\ make_urls_clickable (make_urls_clickable text) <> make_urls_clickable text.
Proof.
  intros Hne. pose proof (make_urls_clickable_linkified text) as Hl. split.
  - destruct (linkified_length _ _ Hl) as [E | Hlen]; [contradiction | exact Hlen].
  - pose proof (linkified_url_inside _ _ Hl Hne) as Hin.
    pose proof (linkified_changes _ _ (make_urls_clickable_linkified _) Hin) as Hlen.
    intros E. rewrite E in Hlen. lia.
Qed.

Lemma make_urls_clickable_twice_witness :
  (String.length "http://a" < String.length (make_urls_clickable "http://a"))%nat
  /\ make_urls_clickable (make_urls_clickable "http://a") <> make_urls_clickable "http://a".
Proof.
  apply (make_urls_clickable_twice "http://a"). vm_compute. discriminate.
Defined.

(** ** The count of process variables, line by line *)

Lemma split_newline_app (a b : string) :
  split "010" None (a +:+ String "010" b) = split "010" None a ++ split "010" None b.
Proof.
  induction a as [|x a IH]; [reflexivity |].
  simpl. rewrite IH. destruct (Ascii.eqb x "010"); simpl; [reflexivity |].
  now destruct (split_not_nil "010" a) as (h & t & ->).
Qed.

Lemma nonblank_lines_zero (s : string) :
  nonblank_lines s = 0%nat <-> has_nonspace s = false.
Proof.
  rewrite nonblank_lines_stats. induction s as [|c s IH]; [now split |].
  rewrite line_stats_cons. cbn [has_nonspace].
  destruct (line_stats (split "010" None s)) as [first others].
  unfold stats_step, stats_total in *. cbn [fst snd] in *.
  destruct (Ascii.eqb c "010") eqn:E.
  - apply Ascii.eqb_eq in E as ->. cbn [fst snd]. exact IH.
  - cbn [fst snd]. destruct (isspace c); cbn [negb orb]; [exact IH |].
    split; [lia | discriminate].
Qed.

(** X3: the count of process variables adds up over the lines of the
    list: the count of [a], a newline and [b] is the count of [a] plus the
    count of [b]; and the count is zero exactly when the text has no
    character that is not white space. *)
Theorem count_pvs_lines (a b : string) :
  count_pvs (a +:+ nl +:+ b) = (count_pvs a + count_pvs b)%nat
  /\ (count_pvs a = 0%nat <-> has_nonspace a = false).
Proof.
  rewrite !count_pvs_nonblank_lines. split; [| apply nonblank_lines_zero].
  unfold nonblank_lines.
  change (a +:+ nl +:+ b) with (a +:+ String "010" b).
  now rewrite split_newline_app, List.filter_app, List.length_app.
Qed.

(** ** The metadata is trimmed *)

Lemma rstrip_rstrip (s : string) : rstrip (rstrip s) = rstrip s.
Proof.
  induction s as [|c s IH]; [reflexivity |]. cbn [rstrip].
  destruct (rstrip s) as [|d r] eqn:E.
  - destruct (isspace c) eqn:Hc; [reflexivity |]. cbn [rstrip]. now rewrite Hc.
  - cbn [rstrip] in *. now rewrite IH.
Qed.

Lemma lstrip_head (s : string) :
  match lstrip s with
  | EmptyString => True
  | String c _ => isspace c = false
  end.
Proof.
  induction s as [|c s IH]; [exact I |]. cbn [lstrip].
  destruct (isspace c) eqn:Hc; [exact IH | exact Hc].
Qed.

Lemma rstrip_head (c : ascii) (s : string) :
  isspace c = false -> exists r, rstrip (String c s) = String c r.
Proof.
  intros Hc. cbn [rstrip]. destruct (rstrip s); [rewrite Hc |]; eauto.
Qed.

Lemma strip_strip (s : string) : strip (strip s) = strip s.
Proof.
  unfold strip. pose proof (lstrip_head s) as H.
  destruct (lstrip s) as [|c t]; [reflexivity |].
  destruct (rstrip_head c t H) as [r E]. rewrite E.
  cbn [lstrip]. rewrite H, <- E. apply rstrip_rstrip.
Qed.

Lemma contains_char_lstrip (c : ascii) (s : string) :
  contains_char c s = false -> contains_char c (lstrip s) = false.
Proof.
  induction s as [|x s IH]; [reflexivity |]. cbn [lstrip contains_char].
  intros H. apply orb_false_elim in H as [Hx Hs].
  destruct (isspace x); [auto |]. cbn [contains_char]. now rewrite Hx, Hs.
Qed.

Lemma contains_char_rstrip (c : ascii) (s : string) :
  contains_char c s = false -> contains_char c (rstrip s) = false.
Proof.
  induction s as [|x s IH]; [reflexivity |]. cbn [rstrip contains_char].
  intros H. apply orb_false_elim in H as [Hx Hs]. specialize (IH Hs).
  destruct (rstrip s) as [|d r].
  - destruct (isspace x); [reflexivity |]. cbn [contains_char]. now rewrite Hx.
  - cbn [contains_char] in *. now rewrite Hx, IH.
Qed.

(** X4: whatever the log file holds, the keys and the values of the
    parsed metadata have no white space at either end, and no key has a
    colon. *)
Theorem extract_ioc_metadata_trimmed (path : string) (w w' : world)
  (m : gmap string string) (key value : string) :
  extract_ioc_metadata path w = (Ok m, w') ->
  m !! key = Some value ->
  strip key = key /\ strip value = value /\ contains_char ":" key = false.
Proof.
  intros H Hk.
  assert (Hb : exists lines, last_binding lines key value).
  { destruct (Fs.stat w path) as [[text|es]|] eqn:E.
    - rewrite (extract_ioc_metadata_file _ _ _ E) in H.
      injection H as H _. exists (readlines text).
      apply (metadata_lines_lookup _ _ _ H) in Hk as [Hk | [Hk _]];
        [exact Hk | now rewrite lookup_empty in Hk].
    - unfold extract_ioc_metadata, bind, os_path_exists, read_text in H.
      rewrite E in H. rewrite bool_decide_eq_true_2 in H by eauto.
      cbn in H. rewrite E in H. discriminate.
    - rewrite (extract_ioc_metadata_absent _ _ E) in H. injection H as <- _.
      now rewrite lookup_empty in Hk. }
  destruct Hb as (lines & pre & line & post & _ & (k & v & _ & Hc & -> & ->) & _).
  rewrite !strip_strip. repeat split.
  unfold strip. now apply contains_char_rstrip, contains_char_lstrip.
Qed.

Lemma extract_ioc_metadata_trimmed_witness :
  strip "IOC Asset" = "IOC Asset"
  /\ strip "http://docs/devA" = "http://docs/devA"
  /\ contains_char ":" "IOC Asset" = false.
Proof.
  apply (extract_ioc_metadata_trimmed "iocinfo/devA/start.log" Sample.start Sample.start
           (match fst (extract_ioc_metadata "iocinfo/devA/start.log" Sample.start) with
            | Ok m => m
            | Raise _ => ∅
            end)
           "IOC Asset" "http://docs/devA").
  - vm_compute. reflexivity.
  - vm_compute. reflexivity.
Defined.

(** ** What the page of an IOC is made of *)

Lemma read_if_exists_Ok (path text : string) (w w' : world) :
  read_if_exists path w = (Ok text, w') -> text = file_text w path.
Proof.
  unfold read_if_exists, file_text. intros H.
  apply bind_readonly_Ok in H as ([|] & Hex & H); [| | apply readonly_exists].
  - apply read_text_Ok in H. now rewrite H.
  - apply os_path_exists_false in Hex. rewrite Hex. unfold ret in H. now injection H as <-.
Qed.

Lemma os_listdir_Ok (path : string) (listing : list string) (w w' : world) :
  os_listdir path w = (Ok listing, w') ->
  exists es, Fs.stat w path = Some (Dir es) /\ listing = map fst es.
Proof.
  unfold os_listdir. destruct (Fs.stat w path) as [[text|es]|]; try discriminate.
  intros [= <- _]. eauto.
Qed.

(** Every field of what [read_ioc] returns, against the files. *)
Lemma read_ioc_fields (iocinfo_dir : string) (ioc_configs : gmap string yaml)
  (ioc_name : string) (w w' : world) (i : ioc_inputs) :
  read_ioc iocinfo_dir ioc_configs ioc_name w = (Ok i, w') ->
  start_log_content i = make_urls_clickable (file_text w (start_log_path iocinfo_dir ioc_name))
  /\ (exists es,
        Fs.stat w (os_path_join iocinfo_dir ioc_name) = Some (Dir es)
        /\ match first_yaml (map fst es) with
           | Some f =>
               Fs.stat w (os_path_join (os_path_join iocinfo_dir ioc_name) f)
               = Some (File (yaml_content i))
           | None => yaml_content i = ""
           end)
  /\ stcmd_content i = file_text w (os_path_join (os_path_join iocinfo_dir ioc_name) "st.cmd")
  /\ description_of ioc_configs ioc_name = Ok (ioc_desc i).
Proof.
  intros H. unfold read_ioc in H.
  apply bind_readonly_Ok in H as (metadata & _ & H); [| auto with readonly].
  apply bind_readonly_Ok in H as (log_text & Hlog & H); [| auto with readonly].
  apply bind_readonly_Ok in H as (listing & Hls & H); [| auto with readonly].
  apply bind_readonly_Ok in H as (yaml_text & Hy & H);
    [| destruct (List.filter _ listing); auto with readonly].
  apply bind_readonly_Ok in H as (stcmd_text & Hst & H); [| auto with readonly].
  apply bind_readonly_Ok in H as (has_pvlist & _ & H); [| auto with readonly].
  apply bind_readonly_Ok in H as ([pvlist_text n] & _ & H);
    [| destruct has_pvlist; auto 6 with readonly].
  apply bind_readonly_Ok in H as (desc & Hd & H); [| auto with readonly].
  unfold ret in H. injection H as <- _. cbn [start_log_content yaml_content stcmd_content ioc_desc].
  apply read_if_exists_Ok in Hlog, Hst. apply lift_Ok in Hd as [Hd _].
  apply os_listdir_Ok in Hls as (es & Hes & ->).
  split; [now rewrite Hlog |]. split; [| now split].
  exists es. split; [exact Hes |]. unfold first_yaml.
  destruct (List.filter _ (map fst es)) as [|f fs]; cbn [hd_error].
  - unfold ret in Hy. now injection Hy as <-.
  - exact (read_text_Ok _ _ _ _ Hy).
Qed.

(** X5: an IOC directory without [start.log] gets a page with the device
    group [other], an empty start log and no asset link in the navigation
    list, which starts with the start-log link. *)
Theorem ioc_page_without_log (iocinfo_dir control_dir : string)
  (ioc_configs : gmap string yaml) (ioc_name : string) (w w' : world) :
  Fs.stat w (start_log_path iocinfo_dir ioc_name) = None ->
  process_ioc iocinfo_dir control_dir ioc_configs ioc_name w = (Ok tt, w') ->
  exists i date,
    written w' = written w
      ++ [(ioc_md_path control_dir ioc_name, ioc_md_content ioc_name date i)]
    /\ devgroup i = "other" /\ ioc_asset i = "" /\ start_log_content i = ""
    /\ hd "" (nav_links (ioc_asset i) (yaml_content i) (stcmd_content i)
                        (pvlist_content i) (pv_count i)) = startlog_link
    /\ forall asset,
         ~ In (asset_link asset)
              (nav_links (ioc_asset i) (yaml_content i) (stcmd_content i)
                         (pvlist_content i) (pv_count i)).
Proof.
  intros Hno H. apply process_ioc_writes in H as (i & date & Hi & Hw).
  destruct (read_ioc_spec _ _ _ _ _ _ Hi) as (_ & (metadata & Hm & Hg & Ha) & _).
  destruct (read_ioc_fields _ _ _ _ _ _ Hi) as (Hl & _).
  rewrite (extract_ioc_metadata_absent _ _ Hno) in Hm. injection Hm as <-.
  rewrite lookup_empty in Hg, Ha. cbn in Hg, Ha.
  unfold file_text in Hl. rewrite Hno in Hl.
  exists i, date. repeat (split; [assumption |]).
  rewrite Ha. unfold nav_links. cbn [nonempty String.eqb negb app hd]. split; [reflexivity |].
  intros asset Hin.
  destruct (nonempty (yaml_content i)), (nonempty (stcmd_content i)),
    (nonempty (pvlist_content i)); simpl in Hin;
    repeat (destruct Hin as [Hin | Hin]; [discriminate |]); exact Hin.
Qed.

Lemma ioc_page_without_log_witness :
  exists i date,
    written (snd (process_ioc "iocinfo" "control" Sample.ioc_configs "devB" Sample.start))
    = [("control/devB.md", ioc_md_content "devB" date i)]
    /\ devgroup i = "other" /\ ioc_asset i = "" /\ start_log_content i = "".
Proof.
  destruct (ioc_page_without_log "iocinfo" "control" Sample.ioc_configs "devB" Sample.start
              (snd (process_ioc "iocinfo" "control" Sample.ioc_configs "devB" Sample.start)))
    as (i & date & Hw & Hg & Ha & Hl & _).
  - vm_compute. reflexivity.
  - vm_compute. reflexivity.
  - exists i, date. now repeat split.
Defined.


(** ** The description of an IOC *)

Lemma configs_of_other (name : string) (iocs : list yaml) :
  (forall ioc, In ioc iocs -> ~ named name ioc) ->
  forall acc m, configs_of iocs acc = Ok m -> m !! name = acc !! name.
Proof.
  induction iocs as [|ioc iocs IH]; intros Hno acc m; cbn [configs_of].
  - now intros [= ->].
  - assert (Hrest : forall x, In x iocs -> ~ named name x) by (intros x Hx; apply Hno; now right).
    pose proof (Hno ioc (or_introl eq_refl)) as Hioc. unfold named in Hioc.
    destruct (Dyn.getitem ioc "name") as [[| | |s| |]|] eqn:E; cbn [rbind]; try discriminate;
      try (apply (IH Hrest)).
    intros H. rewrite (IH Hrest _ _ H). apply lookup_insert_ne. intros ->. now destruct Hioc.
Qed.

Lemma configs_of_last (name : string) (ioc : yaml) (after : list yaml) (before : list yaml) :
  named name ioc ->
  (forall x, In x after -> ~ named name x) ->
  forall acc m, configs_of (before ++ ioc :: after) acc = Ok m -> m !! name = Some ioc.
Proof.
  intros Hn Hafter. induction before as [|x before IH]; intros acc m; cbn [app configs_of].
  - unfold named in Hn. rewrite Hn. cbn [rbind]. intros H.
    rewrite (configs_of_other name after Hafter _ _ H). apply lookup_insert_eq.
  - destruct (Dyn.getitem x "name") as [[| | |s| |]|]; cbn [rbind]; try discriminate; apply IH.
Qed.

(** X7: when two entries of the list of IOCs have the same name and no
    later entry has it, the lookup from names to records holds the later
    entry; the earlier one, and its description, is not used. *)
Theorem configs_of_last_wins (name : string) (before between after : list yaml)
  (first second : yaml) (m : gmap string yaml) :
  named name first ->
  named name second ->
  (forall x, In x after -> ~ named name x) ->
  configs_of (before ++ first :: between ++ second :: after) ∅ = Ok m ->
  exists record,
    second = YMap record
    /\ m !! name = Some second
    /\ description_of m name = Ok (default (YStr "") (Dyn.dict_get record "desc")).
Proof.
  intros _ Hs Hafter H.
  assert (Hm : m !! name = Some second).
  { apply (configs_of_last name second after (before ++ first :: between) Hs Hafter ∅).
    now rewrite <- app_assoc. }
  destruct second as [| | | | |record]; try discriminate.
  exists record. split; [reflexivity |]. split; [exact Hm |].
  unfold description_of. rewrite Hm. cbn [Dyn.contains rbind Dyn.getitem].
  rewrite dict_has_get. now destruct (Dyn.dict_get record "desc").
Qed.

Lemma configs_of_last_wins_witness :
  exists m,
    configs_of [YMap [(YStr "name", YStr "devA"); (YStr "desc", YStr "old")];
                YMap [(YStr "name", YStr "devB")];
                YMap [(YStr "name", YStr "devA"); (YStr "desc", YStr "new")]] ∅ = Ok m
    /\ description_of m "devA" = Ok (YStr "new").
Proof.
  eexists. split; [reflexivity |].
  destruct (configs_of_last_wins "devA" [] [YMap [(YStr "name", YStr "devB")]] []
              (YMap [(YStr "name", YStr "devA"); (YStr "desc", YStr "old")])
              (YMap [(YStr "name", YStr "devA"); (YStr "desc", YStr "new")])
              _ eq_refl eq_refl (fun x (H : In x []) => match H with end) eq_refl)
    as (record & [= <-] & _ & Hd).
  exact Hd.
Defined.

(** X8: the description section of the page of an IOC: there is none for
    an IOC without a record in the configuration or whose record has no
    [desc]; otherwise the section is there exactly when the [desc] value is
    truthy, and holds that value. *)
Theorem ioc_page_description (iocinfo_dir control_dir : string)
  (ioc_configs : gmap string yaml) (ioc_name : string) (w w' : world) :
  process_ioc iocinfo_dir control_dir ioc_configs ioc_name w = (Ok tt, w') ->
  exists i date,
    written w' = written w
      ++ [(ioc_md_path control_dir ioc_name, ioc_md_content ioc_name date i)]
    /\ (ioc_configs !! ioc_name = None -> desc_section (ioc_desc i) = "")
    /\ (forall record,
          ioc_configs !! ioc_name = Some (YMap record) ->
          match Dyn.dict_get record "desc" with
          | None => desc_section (ioc_desc i) = ""
          | Some desc =>
              ioc_desc i = desc
              /\ desc_section desc
                 = if Dyn.truthy desc
                   then nl +:+ "## Description" +:+ nl +:+ nl +:+ Dyn.str desc +:+ nl +:+ nl
                   else ""
          end).
Proof.
  intros H. apply process_ioc_writes in H as (i & date & Hi & Hw).
  destruct (read_ioc_fields _ _ _ _ _ _ Hi) as (_ & _ & _ & Hd).
  exists i, date. split; [exact Hw |]. unfold description_of in Hd. split.
  - intros Hn. rewrite Hn in Hd. now injection Hd as <-.
  - intros record Hr. rewrite Hr in Hd. cbn [Dyn.contains rbind Dyn.getitem] in Hd.
    rewrite dict_has_get in Hd.
    destruct (Dyn.dict_get record "desc") as [desc|]; injection Hd as <-;
      [now split | reflexivity].
Qed.

Lemma ioc_page_description_witness :
  exists i date,
    written Sample.after_devA = [("control/devA.md", ioc_md_content "devA" date i)]
    /\ ioc_desc i = YStr "Magnet power supply".
Proof.
  destruct (ioc_page_description "iocinfo" "control" Sample.ioc_configs "devA"
              Sample.start Sample.after_devA) as (i & date & Hw & _ & Hd).
  - vm_compute. reflexivity.
  - exists i, date. split; [exact Hw |].
    specialize (Hd [(YStr "name", YStr "devA"); (YStr "desc", YStr "Magnet power supply")]).
    now destruct Hd as [Hd _].
Defined.

(** ** Failures *)

Lemma bind_Raise {A B} (m : M A) (k : A -> M B) (w w' : world) (e : exn) :
  bind m k w = (Raise e, w') ->
  m w = (Raise e, w') \/ exists a w1, m w = (Ok a, w1) /\ k a w1 = (Raise e, w').
Proof.
  unfold bind. destruct (m w) as [[a|e'] w1]; intros H; [right; eauto | left].
  now injection H as -> ->.
Qed.

Lemma bind_Ok_then {A B} (m : M A) (k : A -> M B) (w w1 : world) (a : A) :
  m w = (Ok a, w1) -> bind m k w = k a w1.
Proof. intros H. unfold bind. now rewrite H. Qed.

Lemma bind_Raise_then {A B} (m : M A) (k : A -> M B) (w w1 : world) (e : exn) :
  m w = (Raise e, w1) -> bind m k w = (Raise e, w1).
Proof. intros H. unfold bind. now rewrite H. Qed.




Section Failures.

Variable safe_load : string -> result yaml.


Lemma never_raises_print (line : string) : never_raises (print line).
Proof. intros w e w'. discriminate. Qed.

Lemma never_raises_ret {A} (a : A) : never_raises (ret a).
Proof. intros w e w'. discriminate. Qed.

Lemma never_raises_bind {A B} (m : M A) (k : A -> M B) :
  never_raises m -> (forall a, never_raises (k a)) -> never_raises (bind m k).
Proof.
  intros Hm Hk w e w' H. apply bind_Raise in H as [H | (a & w1 & _ & H)].
  - exact (Hm _ _ _ H).
  - exact (Hk _ _ _ _ H).
Qed.

Lemma fails_unchanged_never {A} (m : M A) : never_raises m -> fails_unchanged m.
Proof. intros Hm w e w' H. now destruct (Hm _ _ _ H). Qed.

Lemma fails_unchanged_readonly {A} (m : M A) : readonly m -> fails_unchanged m.
Proof. intros Hm w e w' H. exact (Hm _ _ _ H). Qed.

Lemma fails_unchanged_bind {A B} (m : M A) (k : A -> M B) :
  readonly m -> (forall a, fails_unchanged (k a)) -> fails_unchanged (bind m k).
Proof.
  intros Hm Hk w e w' H. apply bind_Raise in H as [H | (a & w1 & Ha & H)].
  - exact (Hm _ _ _ H).
  - rewrite (Hm _ _ _ Ha) in H. exact (Hk _ _ _ _ H).
Qed.

Lemma fails_unchanged_load_config (values_file : option string) :
  fails_unchanged (load_config safe_load values_file).
Proof.
  unfold load_config, load_ioc_list, load_services_with_ingress.
  pose proof (readonly_load_values safe_load) as Hv.
  destruct values_file as [file|]; [| apply fails_unchanged_never, never_raises_ret].
  destruct (nonempty file); [| apply fails_unchanged_never, never_raises_ret].
  do 5 (apply fails_unchanged_bind; [auto 8 with readonly | intros ?]).
  apply fails_unchanged_never.
  repeat (apply never_raises_bind; [apply never_raises_print | intros ?]).
  apply never_raises_ret.
Qed.

(** X10: a configuration that cannot be loaded (a file that is missing or
    does not parse, a configuration that is not a mapping, an IOC entry
    without a name, a service record that cannot be read) ends the run with
    the exception of the loader before anything is printed or written: the
    world is as it was. *)
Theorem main_config_failure (iocinfo_dir control_dir : string)
  (values_file services_dir : option string) (w w' : world) (e : exn) :
  load_config safe_load values_file w = (Raise e, w') ->
  w' = w
  /\ main safe_load iocinfo_dir control_dir values_file services_dir w = (Raise e, w).
Proof.
  intros H. pose proof (fails_unchanged_load_config _ _ _ _ H) as ->.
  split; [reflexivity |]. unfold main. now apply bind_Raise_then.
Qed.

End Failures.

(** ** The pages of a run *)

Lemma filter_io_isdir (f : string -> string) (l : list string) (w : world) :
  filter_io (fun d => os_path_isdir (f d)) l w
  = (Ok (List.filter (fun d => is_dir w (f d)) l), w).
Proof.
  induction l as [|d l IH]; [reflexivity |]. cbn [filter_io List.filter].
  unfold bind at 1. unfold os_path_isdir at 1. fold (is_dir w (f d)).
  unfold bind at 1. rewrite IH. unfold ret. now destruct (is_dir w (f d)).
Qed.

Lemma select_ioc_dirs_Ok (iocinfo_dir : string) (allowed_iocs : option (list yaml))
  (w w' : world) (ioc_dirs : list string) :
  select_ioc_dirs iocinfo_dir allowed_iocs w = (Ok ioc_dirs, w') ->
  exists es,
    Fs.stat w iocinfo_dir = Some (Dir es)
    /\ ioc_dirs = selected allowed_iocs
                    (List.filter (fun d => is_dir w (os_path_join iocinfo_dir d)) (map fst es)).
Proof.
  unfold select_ioc_dirs. intros H.
  apply bind_readonly_Ok in H as (listing & Hls & H); [| apply readonly_listdir].
  apply os_listdir_Ok in Hls as (es & Hes & ->).
  rewrite (bind_Ok_then _ _ _ _ _ (filter_io_isdir _ _ _)) in H.
  exists es. split; [exact Hes |].
  destruct allowed_iocs as [[|n ns]|]; cbn [selected].
  - unfold ret in H. now injection H as <-.
  - apply bind_Ok in H as (u & w1 & _ & H). unfold ret in H. now injection H as <-.
  - unfold ret in H. now injection H as <-.
Qed.

Lemma allowed_In (names : list yaml) (ioc : string) :
  allowed names ioc = true <-> In (YStr ioc) names.
Proof.
  unfold allowed. rewrite existsb_exists. split.
  - intros (x & Hx & His). destruct x as [| | |s| |]; try discriminate.
    cbn [Dyn.is_str] in His. apply String.eqb_eq in His as ->. exact Hx.
  - intros H. exists (YStr ioc). split; [exact H |]. cbn [Dyn.is_str]. apply String.eqb_refl.
Qed.

Lemma keeps_files_readonly {A} (m : M A) : readonly m -> keeps_files m.
Proof. intros H w r w' E. now rewrite (H _ _ _ E). Qed.

Lemma keeps_files_bind {A B} (m : M A) (k : A -> M B) :
  keeps_files m -> (forall a, keeps_files (k a)) -> keeps_files (bind m k).
Proof.
  intros Hm Hk w r w'. unfold bind.
  destruct (m w) as [[a|e] w1] eqn:E; destruct (Hm _ _ _ E) as [Hr Hc].
  - intros H. destruct (Hk _ _ _ _ H) as [Hr' Hc']. now rewrite Hr', Hc'.
  - now intros [= _ <-].
Qed.

Lemma keeps_files_print (line : string) : keeps_files (print line).
Proof. intros w r w'. unfold print. now intros [= _ <-]. Qed.

Lemma stat_same_files (w w' : world) (path : string) :
  root w' = root w -> cwd w' = cwd w -> Fs.stat w' path = Fs.stat w path.
Proof. intros Hr Hc. unfold Fs.stat, Fs.resolve. now rewrite Hr, Hc. Qed.

Section Pages.

Variable safe_load : string -> result yaml.

Lemma keeps_files_load_config (values_file : option string) :
  keeps_files (load_config safe_load values_file).
Proof.
  unfold load_config, load_ioc_list, load_services_with_ingress.
  pose proof (readonly_load_values safe_load) as Hv.
  destruct values_file as [file|]; [| apply keeps_files_readonly; auto with readonly].
  destruct (nonempty file); [| apply keeps_files_readonly; auto with readonly].
  repeat (apply keeps_files_bind;
          [first [apply keeps_files_print
                 | apply keeps_files_readonly; auto 8 with readonly] | intros ?]).
  apply keeps_files_readonly; auto with readonly.
Qed.

(** X11: without a configuration path (none, or the empty string) a run
    that ends well has written one page for every entry of [iocinfo_dir]
    that is a directory, in the order of the listing, whatever its name,
    and nothing else: entries that are files get no page and there is no
    service page. *)
Theorem main_without_config (iocinfo_dir control_dir : string)
  (values_file services_dir : option string) (w w' : world) :
  values_file = None \/ values_file = Some "" ->
  main safe_load iocinfo_dir control_dir values_file services_dir w = (Ok tt, w') ->
  exists es,
    Fs.stat w iocinfo_dir = Some (Dir es)
    /\ map fst (written w')
       = map fst (written w)
         ++ map (ioc_md_path control_dir)
              (List.filter (fun d => is_dir w (os_path_join iocinfo_dir d)) (map fst es)).
Proof.
  intros Hv H. unfold main in H.
  assert (Hl : load_config safe_load values_file w = (Ok (None, ∅, []), w))
    by (destruct Hv as [-> | ->]; reflexivity).
  rewrite (bind_Ok_then _ _ _ _ _ Hl) in H. cbn beta iota in H.
  apply bind_Ok in H as (ioc_dirs & w1 & Hsel & H).
  apply bind_Ok in H as ([] & w2 & Hioc & H).
  apply bind_Ok in H as ([] & w3 & Hsvc & H).
  apply keeps_written_print in H. cbn [for_each] in Hsvc. unfold ret in Hsvc.
  injection Hsvc as <-.
  destruct (select_ioc_dirs_Ok _ _ _ _ _ Hsel) as (es & Hes & ->).
  exists es. split; [exact Hes |].
  rewrite H, (for_each_process_ioc _ _ _ _ _ _ Hioc).
  now rewrite (keeps_written_select_ioc_dirs _ _ _ _ _ Hsel).
Qed.

(** X12: a run with a configuration that ends well has written one page
    for every entry of [iocinfo_dir] that is a directory and, when the list
    of names is not empty, whose name is one of the names as a string, in
    the order of the listing; then one page for every service record, in
    the order of the records; and nothing else. *)
Theorem main_pages (iocinfo_dir control_dir services_dir : string)
  (values_file : option string) (w w' : world) :
  main safe_load iocinfo_dir control_dir values_file (Some services_dir) w = (Ok tt, w') ->
  exists allowed_iocs ioc_configs services w1 es,
    load_config safe_load values_file w = (Ok (allowed_iocs, ioc_configs, services), w1)
    /\ Fs.stat w iocinfo_dir = Some (Dir es)
    /\ map fst (written w')
       = map fst (written w)
         ++ map (ioc_md_path control_dir)
              (selected allowed_iocs
                 (List.filter (fun d => is_dir w (os_path_join iocinfo_dir d)) (map fst es)))
         ++ map (service_md_path services_dir) services
    /\ (forall name names ioc,
          allowed_iocs = Some (name :: names) ->
          In ioc (selected allowed_iocs
                    (List.filter (fun d => is_dir w (os_path_join iocinfo_dir d)) (map fst es))) ->
          In (YStr ioc) (name :: names)).
Proof.
  intros H.
  destruct (main_writes _ _ _ _ _ _ _ H)
    as (allowed_iocs & ioc_configs & services & ioc_dirs & w1 & w2 & Hl & Hsel & Hw & _).
  destruct (select_ioc_dirs_Ok _ _ _ _ _ Hsel) as (es & Hes & ->).
  destruct (keeps_files_load_config _ _ _ _ Hl) as [Hr Hc].
  assert (Hd : forall d, is_dir w1 (os_path_join iocinfo_dir d)
                         = is_dir w (os_path_join iocinfo_dir d))
    by (intros d; unfold is_dir; now rewrite (stat_same_files w w1 _ Hr Hc)).
  rewrite (stat_same_files w w1 _ Hr Hc) in Hes.
  rewrite (List.filter_ext _ _ Hd) in Hw.
  exists allowed_iocs, ioc_configs, services, w1, es.
  split; [exact Hl |]. split; [exact Hes |]. split; [exact Hw |].
  intros name names ioc -> Hin. cbn [selected] in Hin.
  apply filter_In in Hin as [_ Hin]. now apply allowed_In.
Qed.

End Pages.

(** ** Service records that cannot be read *)

Lemma ingress_or_loadbalancer_unreadable (service_config : yaml) :
  unreadable_ingress service_config ->
  ingress_or_loadbalancer service_config = Raise AttributeError.
Proof.
  unfold ingress_or_loadbalancer, has_ingress, Dyn.or_else.
  destruct service_config as [| | | | |record]; try reflexivity.
  intros (Hf & v & Hv & Hm). cbn [Dyn.get rbind]. rewrite Hf, Hv. cbn [default rbind].
  destruct v as [| | | | |m]; try reflexivity. now destruct (Hm m).
Qed.

(** The loop passes the records it can read. *)
Lemma services_loop_readable (values : yaml) (before rest : list (yaml * yaml)) :
  (exists entries, values = YMap entries) ->
  Forall (fun item => readable_record (snd item)) before ->
  forall services, exists services',
    services_loop values (before ++ rest) services = services_loop values rest services'.
Proof.
  intros [entries ->]. induction 1 as [|[name config] before Hr _ IH]; intros services;
    cbn [app services_loop]; [eauto |]. cbn [snd] in Hr.
  rewrite (ingress_or_loadbalancer_returns _ Hr). cbn [rbind].
  destruct (qualifies config); [| apply IH].
  destruct (compute_url_returns entries name config Hr) as [url ->]. cbn [rbind]. apply IH.
Qed.

Lemma services_with_ingress_loop (entries epics items : list (yaml * yaml)) :
  default (YMap []) (Dyn.dict_get entries "epicsConfiguration") = YMap epics ->
  default (YMap []) (Dyn.dict_get epics "services") = YMap items ->
  services_with_ingress (YMap entries) = services_loop (YMap entries) items [].
Proof.
  intros He Hs. unfold services_with_ingress. cbn [Dyn.get rbind].
  rewrite He. cbn [Dyn.get rbind]. now rewrite Hs.
Qed.

(** X13: one service record whose ingress cannot be told makes the loader
    fail with [AttributeError], whatever the other records are: a record
    that is not a mapping (for example empty), or one whose [ingress] value
    is not a mapping while [enable_ingress] is not set.  A truthy
    [enable_ingress] keeps the [ingress] value from being looked at. *)
Theorem services_with_ingress_unreadable (entries epics : list (yaml * yaml))
  (before after : list (yaml * yaml)) (name service_config : yaml) :
  default (YMap []) (Dyn.dict_get entries "epicsConfiguration") = YMap epics ->
  default (YMap []) (Dyn.dict_get epics "services")
  = YMap (before ++ (name, service_config) :: after) ->
  Forall (fun item => readable_record (snd item)) before ->
  (unreadable_ingress service_config ->
   services_with_ingress (YMap entries) = Raise AttributeError)
  /\ (forall record v,
        service_config = YMap record ->
        Dyn.truthy (default YNull (Dyn.dict_get record "enable_ingress")) = true ->
        Dyn.dict_get record "ingress" = Some v ->
        ingress_or_loadbalancer service_config = Ok true).
Proof.
  intros He Hs Hb. split.
  - intros Hbad. rewrite (services_with_ingress_loop _ _ _ He Hs).
    destruct (services_loop_readable (YMap entries) before ((name, service_config) :: after)
                (ex_intro _ entries eq_refl) Hb []) as [acc ->].
    cbn [services_loop]. now rewrite (ingress_or_loadbalancer_unreadable _ Hbad).
  - intros record v -> Ht _.
    unfold ingress_or_loadbalancer, has_ingress, Dyn.or_else. cbn [Dyn.get rbind].
    rewrite Ht. cbn [rbind]. rewrite Ht. cbn [rbind]. now rewrite Ht.
Qed.

(** X14: a record that qualifies and whose [path] is not a string makes
    the loader fail with [TypeError]: the path is appended to the URL as it
    is, never converted. *)
Theorem services_with_ingress_path_type (entries epics : list (yaml * yaml))
  (before after : list (yaml * yaml)) (name : yaml) (record : list (yaml * yaml))
  (path : yaml) :
  default (YMap []) (Dyn.dict_get entries "epicsConfiguration") = YMap epics ->
  default (YMap []) (Dyn.dict_get epics "services")
  = YMap (before ++ (name, YMap record) :: after) ->
  Forall (fun item => readable_record (snd item)) before ->
  ingress_or_loadbalancer (YMap record) = Ok true ->
  Dyn.dict_get record "path" = Some path ->
  (forall s, path <> YStr s) ->
  services_with_ingress (YMap entries) = Raise TypeError.
Proof.
  intros He Hs Hb Hq Hp Hns. rewrite (services_with_ingress_loop _ _ _ He Hs).
  destruct (services_loop_readable (YMap entries) before ((name, YMap record) :: after)
              (ex_intro _ entries eq_refl) Hb []) as [acc ->].
  cbn [services_loop]. rewrite Hq. cbn [rbind].
  assert (Hu : compute_url (YMap entries) name (YMap record) = Raise TypeError).
  { unfold compute_url. cbn [Dyn.contains Dyn.getitem Dyn.get rbind]. rewrite !dict_has_get, Hp.
    destruct (Dyn.dict_get record "loadbalancer"); cbn [rbind];
      destruct path as [| | |s| |]; try reflexivity; now destruct (Hns s). }
  now rewrite Hu.
Qed.

(** ** The page of a service, in full *)

(** X15: the page of a service is written to [<name>.md] in the services
    directory with the name as title; its description is the [desc] value
    of the record as [str] writes it, and the generic sentence only when
    the record has no [desc] key. *)
Theorem service_page_description (dir : string) (s : service) (w w' : world) :
  process_service (Some dir) s w = (Ok tt, w') ->
  exists record date,
    service_config s = YMap record
    /\ written w' = written w
         ++ [(os_path_join dir (Dyn.str (service_name s) +:+ ".md"),
              service_md_content (Dyn.str (service_name s)) date
                (connection_block record (service_url s))
                (match Dyn.dict_get record "desc" with
                 | Some desc => Dyn.str desc
                 | None => "This is an EPICS service with ingress enabled."
                 end))].
Proof.
  intros H. pose proof H as H0.
  apply process_service_writes in H0 as (record & date & desc & Ec & Hw).
  unfold process_service in H.
  apply bind_Ok in H as (d & w1 & H1 & H). apply lift_Ok in H1 as [H1 ->].
  apply bind_Ok in H as (ingress & w1 & H2 & H). apply lift_Ok in H2 as [H2 ->].
  apply bind_Ok in H as (has_lb & w1 & H3 & H). apply lift_Ok in H3 as [H3 ->].
  apply bind_Ok in H as (d' & w1 & H4 & H). apply lift_Ok in H4 as [[= <-] ->].
  apply bind_Ok in H as (connection & w1 & H5 & H). apply lift_Ok in H5 as [H5 ->].
  apply bind_Ok in H as (date' & w1 & H6 & H). apply now_isoformat_Ok in H6.
  apply bind_Ok in H as (u1 & w2 & H7 & H). apply os_makedirs_Ok in H7.
  apply bind_Ok in H as (u2 & w3 & H8 & H). apply write_text_Ok in H8.
  apply print_Ok in H.
  rewrite H, H8, H7, H6 in Hw. apply app_inv_head in Hw. injection Hw as Hw.
  exists record, date'. split; [exact Ec |].
  rewrite H, H8, H7, H6. do 3 f_equal.
  rewrite Ec in H1. cbn [Dyn.get] in H1. injection H1 as <-.
  unfold service_md_content in *.
  assert (Hc : connection = connection_block record (service_url s)).
  { rewrite Ec in H3. cbn [Dyn.contains] in H3. injection H3 as <-.
    destruct (has_ingress_spec _ _ H2) as (record' & Ec' & Ht).
    rewrite Ec in Ec'. injection Ec' as <-.
    unfold connection_info in H5. rewrite Ht, Ec in H5.
    unfold connection_block. rewrite dict_has_get in H5. cbn [Dyn.getitem] in H5.
    destruct (Dyn.dict_get record "loadbalancer") as [address|];
      destruct (ingress_enabled record); cbn in H5; now injection H5 as <-. }
  rewrite Hc. now destruct (Dyn.dict_get record "desc").
Qed.

Lemma startswith_app (n suffix : string) :
  startswith n "/" = true -> startswith (n +:+ suffix) "/" = true.
Proof.
  destruct n as [|c n]; [discriminate |]. unfold startswith. cbn [removeprefix String.append].
  now destruct (Ascii.eqb "/" c).
Qed.

(** X16: the name of a service is not kept inside the services directory:
    for a name that starts with a slash the page is written to
    [<name>.md] from the root, whatever the services directory is. *)
Theorem service_page_absolute_name (dir : string) (s : service) (w w' : world) :
  startswith (Dyn.str (service_name s)) "/" = true ->
  process_service (Some dir) s w = (Ok tt, w') ->
  map fst (written w') = map fst (written w) ++ [Dyn.str (service_name s) +:+ ".md"].
Proof.
  intros Hn H. apply process_service_writes in H as (record & date & desc & _ & ->).
  rewrite map_app. cbn [map fst]. unfold service_md_path, os_path_join.
  now rewrite (startswith_app _ ".md" Hn).
Qed.

(** ** The further properties on the sample runs *)



Lemma main_config_failure_witness :
  Cases.broken = Cases.broken
  /\ main Sample.safe_load "iocinfo" "control" (Some "values.yaml") (Some "services") Cases.broken
     = (Raise OSError, Cases.broken).
Proof.
  apply (main_config_failure Sample.safe_load "iocinfo" "control" (Some "values.yaml")
           (Some "services") Cases.broken Cases.broken OSError).
  reflexivity.
Defined.

Lemma main_without_config_witness :
  map fst (written (snd (main Sample.safe_load "iocinfo" "control" None None Sample.start)))
  = ["control/devA.md"; "control/devB.md"].
Proof.
  destruct (main_without_config Sample.safe_load "iocinfo" "control" None None Sample.start
              (snd (main Sample.safe_load "iocinfo" "control" None None Sample.start)))
    as (es & Hes & Hw).
  - now left.
  - vm_compute. reflexivity.
  - injection Hes as <-. rewrite Hw. reflexivity.
Defined.

Lemma main_pages_witness :
  exists allowed_iocs ioc_configs services w1,
    load_config Sample.safe_load (Some "values.yaml") Sample.start
    = (Ok (allowed_iocs, ioc_configs, services), w1)
    /\ map fst (written (snd Sample.run))
       = map (ioc_md_path "control")
           (selected allowed_iocs
              (List.filter (fun d => is_dir Sample.start (os_path_join "iocinfo" d))
                           ["devA"; "devB"; "README"]))
         ++ map (service_md_path "services") services.
Proof.
  destruct (main_pages Sample.safe_load "iocinfo" "control" "services" (Some "values.yaml")
              Sample.start (snd Sample.run))
    as (allowed_iocs & ioc_configs & services & w1 & es & Hl & Hes & Hw & _).
  - vm_compute. reflexivity.
  - exists allowed_iocs, ioc_configs, services, w1. split; [exact Hl |].
    injection Hes as <-. exact Hw.
Defined.

Lemma services_with_ingress_unreadable_witness :
  services_with_ingress (YMap Cases.bad_ingress) = Raise AttributeError.
Proof.
  apply (services_with_ingress_unreadable Cases.bad_ingress
           [(YStr "services",
             YMap [(YStr "ok", Cases.ok_record); (YStr "bad", Cases.bad_record);
                   (YStr "lb", YMap [(YStr "loadbalancer", YStr "h")])])]
           [(YStr "ok", Cases.ok_record)]
           [(YStr "lb", YMap [(YStr "loadbalancer", YStr "h")])]
           (YStr "bad") Cases.bad_record).
  - reflexivity.
  - reflexivity.
  - constructor; [| constructor].
    exists [(YStr "enable_ingress", YBool true); (YStr "ingress", YStr "yes")].
    split; [reflexivity |]. split; [now left | now left].
  - split; [reflexivity |]. exists (YStr "yes"). split; [reflexivity | discriminate].
Defined.

Lemma services_with_ingress_path_type_witness :
  services_with_ingress (YMap Cases.bad_path) = Raise TypeError.
Proof.
  apply (services_with_ingress_path_type Cases.bad_path
           [(YStr "services", YMap [(YStr "web", YMap Cases.port_record)])]
           [] [] (YStr "web") Cases.port_record (YInt 8080)).
  - reflexivity.
  - reflexivity.
  - constructor.
  - reflexivity.
  - reflexivity.
  - discriminate.
Defined.

Lemma service_page_description_witness :
  exists date,
    written Sample.after_lb
    = [("services/lb.md",
        service_md_content "lb" date "**Connection IP:** 10.0.0.5"
          "This is an EPICS service with ingress enabled.")].
Proof.
  destruct (service_page_description "services" Sample.lb Sample.start Sample.after_lb)
    as (record & date & Ec & Hw).
  - vm_compute. reflexivity.
  - exists date. injection Ec as <-. exact Hw.
Defined.

Lemma service_page_absolute_name_witness :
  map fst (written (snd (process_service (Some "services") Cases.absolute Cases.with_tmp)))
  = [] ++ ["/tmp/x.md"].
Proof.
  apply (service_page_absolute_name "services" Cases.absolute Cases.with_tmp
           (snd (process_service (Some "services") Cases.absolute Cases.with_tmp))).
  - reflexivity.
  - vm_compute. reflexivity.
Defined.
